(** * The chat transcript controller of chatbot-pd-fe

    A shallow embedding of the [App] component (the latest revision of
    [App.tsx]): its [Message] data, the [handleSendMessage] handler with
    the continuation that runs when the awaited request settles, the two
    effects that restore and persist the transcript through
    [localStorage], and the helper [getOrCreateCid].

    Conventions.
    - A JavaScript string is a [string] holding its UTF-8 bytes.
    - A [Date] is its time value: milliseconds since the epoch, in [Z].
    - A [number] that the component computes is a list length plus a
      constant, so ids are integers in [Z].
    - A value that comes out of [JSON.parse] or [response.json ()] is
      a [json] tree. The reply of the server is typed [any], so the
      [text] of a message is such a value at run time, a string among
      them; nothing checks that it is one.
    - [new Date ()], [Math.random ()] and the settling of [fetch] are
      inputs of the environment: they appear as arguments.
    - A handler reads the state of the render it was created in, and
      the updaters passed to a state setter run in the order of the
      calls, each on the result of the one before. An [async] handler is
      cut at its [await]: the part before it is one function, the part
      after it another, run when the request settles. *)

From Stdlib Require Import ZArith String Ascii List Bool Lia.
From Stdlib Require DecimalFacts DecimalPos DecimalZ.
From stdpp Require Import base gmap strings list.
Import ListNotations.
Local Open Scope Z_scope.

(** ** JavaScript strings *)

Module Js.

(** Single-byte members of [WhiteSpace] and [LineTerminator]:
    TAB, LF, VT, FF, CR and SPACE. *)
Definition ws1 (c : ascii) : bool :=
  match c with
  | "009"%char | "010"%char | "011"%char | "012"%char | "013"%char
  | " "%char => true
  | _ => false
  end.

(** U+00A0, no-break space, is the only two-byte member. *)
Definition ws2 (a b : ascii) : bool :=
  match a, b with
  | "194"%char, "160"%char => true
  | _, _ => false
  end.

(** Three-byte members: U+1680, U+2000 to U+200A, U+2028, U+2029,
    U+202F, U+205F, U+3000 and U+FEFF. *)
Definition ws3 (a b c : ascii) : bool :=
  match a, b with
  | "225"%char, "154"%char => Ascii.eqb c "128"%char
  | "226"%char, "128"%char =>
      let n := N_of_ascii c in
      ((128 <=? n) && (n <=? 138) || (n =? 168) || (n =? 169)
       || (n =? 175))%N
  | "226"%char, "129"%char => Ascii.eqb c "159"%char
  | "227"%char, "128"%char => Ascii.eqb c "128"%char
  | "239"%char, "187"%char => Ascii.eqb c "191"%char
  | _, _ => false
  end.

(** [String.prototype.trimStart] *)
Fixpoint trimStart (s : string) : string :=
  match s with
  | String a s1 =>
      if ws1 a then trimStart s1 else
      match s1 with
      | String b s2 =>
          if ws2 a b then trimStart s2 else
          match s2 with
          | String c s3 => if ws3 a b c then trimStart s3 else s
          | EmptyString => s
          end
      | EmptyString => s
      end
  | EmptyString => s
  end.

(** The same scan over the reversed bytes, for the end of the string. *)
Fixpoint trimStart_rev (s : string) : string :=
  match s with
  | String c s1 =>
      if ws1 c then trimStart_rev s1 else
      match s1 with
      | String b s2 =>
          if ws2 b c then trimStart_rev s2 else
          match s2 with
          | String a s3 => if ws3 a b c then trimStart_rev s3 else s
          | EmptyString => s
          end
      | EmptyString => s
      end
  | EmptyString => s
  end.

(** [String.prototype.trimEnd] *)
Definition trimEnd (s : string) : string :=
  String.rev (trimStart_rev (String.rev s)).

(** [String.prototype.trim] *)
Definition trim (s : string) : string := trimEnd (trimStart s).

(** [s.slice (n)] for [0 <= n]: the string without its first [n]
    code units. *)
Fixpoint slice (n : nat) (s : string) : string :=
  match n, s with
  | S k, String _ r => slice k r
  | _, _ => s
  end.

End Js.

(** ** JSON values *)

#[local] Unset Elimination Schemes.
Inductive json : Type :=
| JNull
| JBool (b : bool)
| JNum (n : Z)
| JStr (s : string)
| JArr (elems : list json)
| JObj (fields : list (string * json)).
#[local] Set Elimination Schemes.

(** A string, where a value is expected, is the string value. *)
Coercion JStr : string >-> json.

Module Json.

(** The value of member [k]; a later duplicate of a name wins, as in
    [JSON.parse]. [None] is [undefined]. *)
Fixpoint member (k : string) (fields : list (string * json)) : option json :=
  match fields with
  | [] => None
  | (k', v) :: rest =>
      match member k rest with
      | Some w => Some w
      | None => if String.eqb k k' then Some v else None
      end
  end.

(** [ToBoolean] on a JSON value. *)
Definition truthy (v : json) : bool :=
  match v with
  | JNull => false
  | JBool b => b
  | JNum n => negb (n =? 0)
  | JStr s => negb (String.eqb s "")
  | JArr _ | JObj _ => true
  end.

(** *** [JSON.stringify]

    Printers take the text that follows as a second argument. *)

Definition dquote : ascii := "034"%char.
Definition backslash : ascii := "092"%char.

Definition hex_char (n : N) : ascii :=
  if (n <? 10)%N then ascii_of_N (48 + n) else ascii_of_N (87 + n).

(** One character inside [QuoteJSONString]. *)
Definition quote_char (c : ascii) (rest : string) : string :=
  let n := N_of_ascii c in
  if Ascii.eqb c dquote then String backslash (String dquote rest)
  else if Ascii.eqb c backslash then String backslash (String backslash rest)
  else if (n =? 8)%N then String backslash (String "b" rest)
  else if (n =? 9)%N then String backslash (String "t" rest)
  else if (n =? 10)%N then String backslash (String "n" rest)
  else if (n =? 12)%N then String backslash (String "f" rest)
  else if (n =? 13)%N then String backslash (String "r" rest)
  else if (n <? 32)%N then
    String backslash (String "u" (String "0" (String "0"
      (String (hex_char (n / 16)) (String (hex_char (n mod 16)) rest)))))
  else String c rest.

Fixpoint quote_body (s : string) (rest : string) : string :=
  match s with
  | EmptyString => rest
  | String c s' => quote_char c (quote_body s' rest)
  end.

Definition quote (s : string) (rest : string) : string :=
  String dquote (quote_body s (String dquote rest)).

Fixpoint print_uint (d : Decimal.uint) (rest : string) : string :=
  match d with
  | Decimal.Nil => rest
  | Decimal.D0 d' => String "0" (print_uint d' rest)
  | Decimal.D1 d' => String "1" (print_uint d' rest)
  | Decimal.D2 d' => String "2" (print_uint d' rest)
  | Decimal.D3 d' => String "3" (print_uint d' rest)
  | Decimal.D4 d' => String "4" (print_uint d' rest)
  | Decimal.D5 d' => String "5" (print_uint d' rest)
  | Decimal.D6 d' => String "6" (print_uint d' rest)
  | Decimal.D7 d' => String "7" (print_uint d' rest)
  | Decimal.D8 d' => String "8" (print_uint d' rest)
  | Decimal.D9 d' => String "9" (print_uint d' rest)
  end.

(** An integer in decimal, as [Number::toString] prints the integers
    that the component computes. *)
Definition print_int (n : Z) (rest : string) : string :=
  match Z.to_int n with
  | Decimal.Pos d => print_uint d rest
  | Decimal.Neg d => String "-" (print_uint d rest)
  end.

(** The elements after the first one, and the closing bracket. *)
Definition print_tail {A : Type} (pr : A -> string -> string) (close : ascii)
  : list A -> string -> string :=
  fix go (l : list A) (rest : string) : string :=
    match l with
    | [] => String close rest
    | x :: xs => String "," (pr x (go xs rest))
    end.

Fixpoint print (v : json) (rest : string) : string :=
  match v with
  | JNull => "null" +:+ rest
  | JBool true => "true" +:+ rest
  | JBool false => "false" +:+ rest
  | JNum n => print_int n rest
  | JStr s => quote s rest
  | JArr l =>
      String "[" match l with
                 | [] => String "]" rest
                 | x :: xs => print x (print_tail print "]" xs rest)
                 end
  | JObj fs =>
      let field (kv : string * json) (r : string) :=
        quote (fst kv) (String ":" (print (snd kv) r)) in
      String "{" match fs with
                 | [] => String "}" rest
                 | kv :: kvs => field kv (print_tail field "}" kvs rest)
                 end
  end.

Definition stringify (v : json) : string := print v "".

(** *** [JSON.parse]

    Each parser returns the value read and the text left over; [None]
    is a [SyntaxError]. Number literals with a fraction or an exponent
    and [\u] escapes of surrogate halves are not covered and read as
    errors: the component writes neither. Where it matters that text
    is not JSON, [cannot_open] below is asked as well. *)

Definition is_ws (c : ascii) : bool :=
  match c with
  | " "%char | "009"%char | "010"%char | "013"%char => true
  | _ => false
  end.

Fixpoint skip_ws (s : string) : string :=
  match s with
  | String c r => if is_ws c then skip_ws r else s
  | EmptyString => s
  end.

Definition digit_of (c : ascii) : option (Decimal.uint -> Decimal.uint) :=
  match c with
  | "0" => Some Decimal.D0 | "1" => Some Decimal.D1
  | "2" => Some Decimal.D2 | "3" => Some Decimal.D3
  | "4" => Some Decimal.D4 | "5" => Some Decimal.D5
  | "6" => Some Decimal.D6 | "7" => Some Decimal.D7
  | "8" => Some Decimal.D8 | "9" => Some Decimal.D9
  | _ => None
  end%char.

(** The longest run of digits at the front. *)
Fixpoint read_digits (s : string) : Decimal.uint * string :=
  match s with
  | String c r =>
      match digit_of c with
      | Some d => let (ds, r') := read_digits r in (d ds, r')
      | None => (Decimal.Nil, s)
      end
  | EmptyString => (Decimal.Nil, s)
  end.

(** Whether a number literal may stop before [s]. *)
Definition number_ends (s : string) : bool :=
  match s with
  | String c _ =>
      negb (Ascii.eqb c "." || Ascii.eqb c "e" || Ascii.eqb c "E")
  | EmptyString => true
  end.

Definition parse_unsigned (s : string) : option (Decimal.uint * string) :=
  match read_digits s with
  | (Decimal.Nil, _) => None
  | (Decimal.D0 Decimal.Nil, r) =>
      if number_ends r then Some (Decimal.D0 Decimal.Nil, r) else None
  | (Decimal.D0 _, _) => None
  | (d, r) => if number_ends r then Some (d, r) else None
  end.

(** The text after the character [c], when [s] starts with it. *)
Definition starts (c : ascii) (s : string) : option string :=
  match s with
  | String c' r => if Ascii.eqb c c' then Some r else None
  | EmptyString => None
  end.

Definition parse_number (s : string) : option (json * string) :=
  match starts "-" s with
  | Some r =>
      match parse_unsigned r with
      | Some (d, r') => Some (JNum (Z.of_int (Decimal.Neg d)), r')
      | None => None
      end
  | None =>
      match parse_unsigned s with
      | Some (d, r') => Some (JNum (Z.of_int (Decimal.Pos d)), r')
      | None => None
      end
  end.

Definition hex_val (c : ascii) : option N :=
  let n := N_of_ascii c in
  if ((48 <=? n) && (n <=? 57))%N then Some (n - 48)%N
  else if ((97 <=? n) && (n <=? 102))%N then Some (n - 87)%N
  else if ((65 <=? n) && (n <=? 70))%N then Some (n - 55)%N
  else None.

Definition hex4 (a b c d : ascii) : option N :=
  match hex_val a, hex_val b, hex_val c, hex_val d with
  | Some x, Some y, Some z, Some w =>
      Some (((x * 16 + y) * 16 + z) * 16 + w)%N
  | _, _, _, _ => None
  end.

(** The UTF-8 bytes of a code point below 65536 that is not a surrogate
    half, put in front of [rest]. *)
Definition utf8 (cp : N) (rest : string) : option string :=
  if (cp <? 128)%N then Some (String (ascii_of_N cp) rest)
  else if (cp <? 2048)%N then
    Some (String (ascii_of_N (192 + cp / 64))
           (String (ascii_of_N (128 + cp mod 64)) rest))
  else if ((55296 <=? cp) && (cp <=? 57343))%N then None
  else
    Some (String (ascii_of_N (224 + cp / 4096))
           (String (ascii_of_N (128 + (cp / 64) mod 64))
             (String (ascii_of_N (128 + cp mod 64)) rest))).

Definition simple_escape (e : ascii) : option ascii :=
  if Ascii.eqb e dquote then Some dquote
  else if Ascii.eqb e backslash then Some backslash
  else match e with
       | "/" => Some "/" | "b" => Some "008" | "f" => Some "012"
       | "n" => Some "010" | "r" => Some "013" | "t" => Some "009"
       | _ => None
       end%char.

(** A string literal, after its opening quote. *)
Fixpoint parse_string (s : string) : option (string * string) :=
  match s with
  | EmptyString => None
  | String c r =>
      if Ascii.eqb c dquote then Some (EmptyString, r)
      else if Ascii.eqb c backslash then
        match r with
        | String e r1 =>
            match simple_escape e with
            | Some ch =>
                match parse_string r1 with
                | Some (str, r') => Some (String ch str, r')
                | None => None
                end
            | None =>
                if Ascii.eqb e "u" then
                  match r1 with
                  | String h1 (String h2 (String h3 (String h4 r2))) =>
                      match hex4 h1 h2 h3 h4, parse_string r2 with
                      | Some cp, Some (str, r') =>
                          match utf8 cp str with
                          | Some str' => Some (str', r')
                          | None => None
                          end
                      | _, _ => None
                      end
                  | _ => None
                  end
                else None
            end
        | EmptyString => None
        end
      else if (N_of_ascii c <? 32)%N then None
      else
        match parse_string r with
        | Some (str, r') => Some (String c str, r')
        | None => None
        end
  end.

(** The literal [lit] at the front of [s]. *)
Fixpoint expect (lit : string) (s : string) : option string :=
  match lit, s with
  | EmptyString, _ => Some s
  | String a lit', String b s' =>
      if Ascii.eqb a b then expect lit' s' else None
  | String _ _, EmptyString => None
  end.

Fixpoint parse_value (fuel : nat) (s : string) : option (json * string) :=
  match fuel with
  | O => None
  | S f =>
      match skip_ws s with
      | EmptyString => None
      | String c r =>
          if Ascii.eqb c "n" then
            match expect "ull" r with
            | Some r' => Some (JNull, r') | None => None end
          else if Ascii.eqb c "t" then
            match expect "rue" r with
            | Some r' => Some (JBool true, r') | None => None end
          else if Ascii.eqb c "f" then
            match expect "alse" r with
            | Some r' => Some (JBool false, r') | None => None end
          else if Ascii.eqb c dquote then
            match parse_string r with
            | Some (str, r') => Some (JStr str, r') | None => None end
          else if Ascii.eqb c "[" then
            match starts "]" (skip_ws r) with
            | Some r' => Some (JArr [], r')
            | None =>
                match parse_elements f r with
                | Some (l, r') => Some (JArr l, r') | None => None end
            end
          else if Ascii.eqb c "{" then
            match starts "}" (skip_ws r) with
            | Some r' => Some (JObj [], r')
            | None =>
                match parse_members f r with
                | Some (l, r') => Some (JObj l, r') | None => None end
            end
          else parse_number (String c r)
      end
  end
with parse_elements (fuel : nat) (s : string)
     : option (list json * string) :=
  match fuel with
  | O => None
  | S f =>
      match parse_value f s with
      | None => None
      | Some (v, r) =>
          match starts "," (skip_ws r) with
          | Some r' =>
              match parse_elements f r' with
              | Some (l, r'') => Some (v :: l, r'') | None => None end
          | None =>
              match starts "]" (skip_ws r) with
              | Some r' => Some ([v], r')
              | None => None
              end
          end
      end
  end
with parse_members (fuel : nat) (s : string)
     : option (list (string * json) * string) :=
  match fuel with
  | O => None
  | S f =>
      match starts dquote (skip_ws s) with
      | None => None
      | Some r =>
          match parse_string r with
          | None => None
          | Some (k, r1) =>
              match starts ":" (skip_ws r1) with
              | None => None
              | Some r2 =>
                  match parse_value f r2 with
                  | None => None
                  | Some (v, r3) =>
                      match starts "," (skip_ws r3) with
                      | Some r4 =>
                          match parse_members f r4 with
                          | Some (l, r5) => Some ((k, v) :: l, r5)
                          | None => None
                          end
                      | None =>
                          match starts "}" (skip_ws r3) with
                          | Some r4 => Some ([(k, v)], r4)
                          | None => None
                          end
                      end
                  end
              end
          end
      end
  end.

(** A bound on the depth of calls that reading [v] back takes. *)
Fixpoint size (v : json) : nat :=
  match v with
  | JArr l => S (list_sum (map (fun x => S (size x)) l))
  | JObj fs => S (list_sum (map (fun kv => S (size (snd kv))) fs))
  | _ => 1
  end.

(** [JSON.parse (s)]: one value, then only white space. *)
Definition parse (s : string) : option json :=
  match parse_value (S (String.length s)) s with
  | Some (v, r) =>
      match skip_ws r with
      | EmptyString => Some v
      | String _ _ => None
      end
  | None => None
  end.

(** Text that is a [SyntaxError] whatever follows its start: past the
    white space it ends, or it goes on with a character that starts no
    value (no digit, none of [-], the double quote, the brackets and
    the first letters of [true], [false] and [null]). *)
Definition cannot_open (s : string) : bool :=
  match skip_ws s with
  | EmptyString => true
  | String c _ =>
      match digit_of c with
      | Some _ => false
      | None =>
          negb (Ascii.eqb c "-" || Ascii.eqb c dquote || Ascii.eqb c "["
                || Ascii.eqb c "{" || Ascii.eqb c "t" || Ascii.eqb c "f"
                || Ascii.eqb c "n")
      end
  end.

(** *** Notions used in the proofs about [print] and [parse] *)

(** What may follow a number: no digit, and none of [.], [e], [E]. *)
Definition terminated (rest : string) : bool :=
  match rest with
  | String c _ =>
      match digit_of c with Some _ => false | None => true end
      && number_ends rest
  | EmptyString => true
  end.

(** The first character of a printed value: no white space and no
    closing bracket. *)
Definition opens (s : string) : bool :=
  match s with
  | String c _ =>
      negb (is_ws c) && negb (Ascii.eqb "]" c) && negb (Ascii.eqb "}" c)
  | EmptyString => false
  end.

Definition number_start (c : ascii) : bool :=
  match digit_of c with Some _ => true | None => Ascii.eqb c "-" end.

Definition reads_back (v : json) : Prop :=
  forall fuel rest,
    (size v <= fuel)%nat -> terminated rest = true ->
    parse_value fuel (print v rest) = Some (v, rest).

Definition long_enough (v : json) : Prop :=
  forall rest,
    (size v + String.length rest <= String.length (print v rest))%nat.

End Json.

(** ** Messages and the component state *)

Inductive Sender : Type := user | bot | loading.

Definition Sender_eqb (a b : Sender) : bool :=
  match a, b with
  | user, user | bot, bot | loading, loading => true
  | _, _ => false
  end.

(** [interface Message]. The interface says [text: string]; the field
    holds what was assigned to it, and the reply of the server and what
    is read back from the storage are assigned as they come. *)
Record Message : Type := mkMessage {
  id : Z;
  text : json;
  sender : Sender;
  timestamp : Z
}.

(** A time value that a [Date] can hold (ECMAScript's [TimeClip]). *)
Definition valid_time (t : Z) : Prop :=
  -8640000000000000 <= t <= 8640000000000000.

Definition valid_timeb (t : Z) : bool :=
  (-8640000000000000 <=? t) && (t <=? 8640000000000000).

(** The body of the POST request: [{ question: userInput }]. *)
Record Request : Type := mkRequest { question : string }.

(** What the awaited [fetch (...)] and [response.json ()] end in. *)
Inductive Fetch : Type :=
| NetworkError            (* [fetch] rejects *)
| BodyNotJson             (* [response.json ()] rejects *)
| Body (data : json).     (* [data], the parsed body *)

(** The three [useState] cells ([loading_flag] is the cell [loading]),
    and the request whose continuation is suspended at [await], if there
    is one. *)
Record State : Type := mkState {
  messages : list Message;
  input : string;
  loading_flag : bool;
  inflight : option Request
}.

Module App.

Definition greeting : string :=
  "Hello! Ask me about one of our Brathay properties.".
Definition typing_text : string := "…".
Definition fallback_text : string := "Sorry, no response received.".
Definition error_text : string :=
  "Error: Unable to reach the chatbot service.".

(** The initial values given to [useState]; [t0] is [new Date ()] at
    the first render. *)
Definition initial (t0 : Z) : State :=
  {| messages := [ {| id := 1; text := greeting; sender := bot;
                      timestamp := t0 |} ];
     input := "";
     loading_flag := false;
     inflight := None |}.

Definition setMessages (f : list Message -> list Message) (s : State) : State :=
  {| messages := f (messages s); input := input s;
     loading_flag := loading_flag s; inflight := inflight s |}.

Definition setInput (v : string) (s : State) : State :=
  {| messages := messages s; input := v;
     loading_flag := loading_flag s; inflight := inflight s |}.

Definition setLoading (b : bool) (s : State) : State :=
  {| messages := messages s; input := input s;
     loading_flag := b; inflight := inflight s |}.

Definition setInflight (r : option Request) (s : State) : State :=
  {| messages := messages s; input := input s;
     loading_flag := loading_flag s; inflight := r |}.

(** [msg => msg.sender !== 'loading'] *)
Definition not_loading (msg : Message) : bool :=
  negb (Sender_eqb (sender msg) loading).

(** [messages.length + k] *)
Definition length_plus (l : list Message) (k : Z) : Z :=
  Z.of_nat (length l) + k.

Definition newUserMessage (s : State) (now : Z) : Message :=
  {| id := length_plus (messages s) 1; text := input s; sender := user;
     timestamp := now |}.

Definition loadingMessage (s : State) (now : Z) : Message :=
  {| id := length_plus (messages s) 2; text := typing_text;
     sender := loading; timestamp := now |}.

(** The first state update of the handler:
    [setMessages (prev => [...prev, newUserMessage])]. *)
Definition afterUserMessage (s : State) (now : Z) : State :=
  setMessages (fun prev => prev ++ [newUserMessage s now]) s.

(** [handleSendMessage] up to the [await]: the new state and the request
    that is sent, if any. [messages s] and [input s] are the values the
    handler closed over; the updaters read [prev]. [t_user] and
    [t_loading] are the two readings of [new Date ()]. The [memory]
    array that the handler also builds is used by nothing (the request
    body that would carry it is commented out); it is [Memory.memory]
    below. *)
Definition handleSendMessage (s : State) (t_user t_loading : Z)
  : State * option Request :=
  if String.eqb (Js.trim (input s)) "" then (s, None) else
  let s1 := afterUserMessage s t_user in
  let userInput := input s in
  let s2 := setInput "" s1 in
  let s3 := setLoading true s2 in
  let s4 := setMessages (fun prev => prev ++ [loadingMessage s t_loading]) s3 in
  (s4, Some {| question := userInput |}).

(** What [data.response || 'Sorry, no response received.'] evaluates
    to. *)
Inductive Reply : Type :=
| Throws                 (* [data] is [null]: reading a property throws *)
| Text (s : string)      (* a string: the reply or the fallback *)
| NotText (v : json).    (* a truthy reply that is not a string *)

(** [data.response]: [None] when reading it throws, [Some None] for
    [undefined]. Only an object can have the member. *)
Definition response_of (data : json) : option (option json) :=
  match data with
  | JNull => None
  | JObj fields => Some (Json.member "response" fields)
  | _ => Some None
  end.

Definition botReply (data : json) : Reply :=
  match response_of data with
  | None => Throws
  | Some None => Text fallback_text
  | Some (Some v) =>
      if Json.truthy v then
        match v with JStr s => Text s | _ => NotText v end
      else Text fallback_text
  end.

(** The updater shared by the [try] and the [catch] branch:
    [prev => [...prev.filter (msg => msg.sender !== 'loading'),
              { id: prev.length + 1, text, sender: 'bot', timestamp }]]. *)
Definition replacePlaceholder (txt : json) (now : Z)
           (prev : list Message) : list Message :=
  List.filter not_loading prev
    ++ [ {| id := length_plus prev 1; text := txt; sender := bot;
            timestamp := now |} ].

(** The [catch] block followed by [finally]. *)
Definition onCatch (s : State) (now : Z) : State :=
  setInflight None
    (setLoading false (setMessages (replacePlaceholder error_text now) s)).

(** The rest of [handleSendMessage], from the [await] on: the [try]
    block from [response.json ()] on or the [catch] block, then
    [finally]. It always completes. [botReply] becomes the text as it
    is, a string or not. *)
Definition onSettled (s : State) (r : Fetch) (now : Z) : option State :=
  match r with
  | NetworkError | BodyNotJson => Some (onCatch s now)
  | Body data =>
      match botReply data with
      | Throws => Some (onCatch s now)
      | Text txt =>
          Some (setInflight None
                  (setLoading false
                     (setMessages (replacePlaceholder txt now) s)))
      | NotText v =>
          Some (setInflight None
                  (setLoading false
                     (setMessages (replacePlaceholder v now) s)))
      end
  end.

(** Whether the [try] block throws. *)
Definition try_throws (r : Fetch) : bool :=
  match r with
  | NetworkError | BodyNotJson => true
  | Body data => match botReply data with Throws => true | _ => false end
  end.

(** What can happen to the mounted component. *)
Inductive Event : Type :=
| Typed (draft : string)           (* [onChange]: [setInput] *)
| Send (t_user t_loading : Z)      (* click or Enter: [handleSendMessage] *)
| Settled (r : Fetch) (now : Z).   (* the awaited request settles *)

(** One event, as a change of the state cells. The text field and the
    send button are [disabled] while [loading] holds, so [Typed] and
    [Send] need the flag to be false; [Settled] needs a suspended
    request. Dates are valid time values. Whether React can draw the
    state that results is [ReactChild.draws], which [Page.step] asks
    for. *)
Definition step (s : State) (e : Event) : option State :=
  match e with
  | Typed draft =>
      if loading_flag s then None else Some (setInput draft s)
  | Send t_user t_loading =>
      if loading_flag s then None
      else if valid_timeb t_user && valid_timeb t_loading then
        match handleSendMessage s t_user t_loading with
        | (s', Some req) => Some (setInflight (Some req) s')
        | (s', None) => Some s'
        end
      else None
  | Settled r now =>
      match inflight s with
      | Some _ => if valid_timeb now then onSettled s r now else None
      | None => None
      end
  end.

Fixpoint run (s : State) (es : list Event) : option State :=
  match es with
  | [] => Some s
  | e :: rest =>
      match step s e with
      | Some s' => run s' rest
      | None => None
      end
  end.

(** The states of one session that starts from the default greeting. *)
Inductive reachable : State -> Prop :=
| reachable_initial t0 : valid_time t0 -> reachable (initial t0)
| reachable_step s e s' :
    reachable s -> step s e = Some s' -> reachable s'.

Definition count_loading (l : list Message) : nat :=
  length (List.filter (fun m => Sender_eqb (sender m) loading) l).

(** The flag, the suspended request and the placeholder go together. *)
Definition in_step (s : State) : Prop :=
  if loading_flag s
  then count_loading (messages s) = 1%nat /\ inflight s <> None
  else count_loading (messages s) = 0%nat /\ inflight s = None.

End App.

(** ** Dates in the ISO format *)

Module JsDate.

Definition msPerDay : Z := 86400000.

(** Within one cycle of 400 years that starts on a first of March:
    the year of the cycle, the month and the day of a day number. *)
Definition ymd_of_doe (doe : Z) : Z * Z * Z :=
  let yoe := (doe - doe / 1460 + doe / 36524 - doe / 146096) / 365 in
  let doy := doe - (365 * yoe + yoe / 4 - yoe / 100) in
  let mp := (5 * doy + 2) / 153 in
  let d := doy - (153 * mp + 2) / 5 + 1 in
  let m := if mp <? 10 then mp + 3 else mp - 9 in
  (yoe, m, d).

Definition doe_of_ymd (yoe m d : Z) : Z :=
  let mp := if 2 <? m then m - 3 else m + 9 in
  let doy := (153 * mp + 2) / 5 + d - 1 in
  yoe * 365 + yoe / 4 - yoe / 100 + doy.

(** [YearFromTime], [MonthFromTime] (from 1) and [DateFromTime] of the
    day number [z] = [Day (t)]. *)
Definition civil_from_days (z : Z) : Z * Z * Z :=
  let z' := z + 719468 in
  let era := z' / 146097 in
  let '(yoe, m, d) := ymd_of_doe (z' mod 146097) in
  (yoe + era * 400 + (if m <=? 2 then 1 else 0), m, d).

(** [MakeDay] for a month from 1 to 12. *)
Definition days_from_civil (y m d : Z) : Z :=
  let y' := y - (if m <=? 2 then 1 else 0) in
  (y' / 400) * 146097 + doe_of_ymd (y' mod 400) m d - 719468.

Definition digit (n : Z) : ascii := ascii_of_N (48 + Z.to_N n).

(** The last [w] decimal digits of [n], then [rest]. *)
Fixpoint pad (w : nat) (n : Z) (rest : string) : string :=
  match w with
  | O => rest
  | S k => pad k (n / 10) (String (digit (n mod 10)) rest)
  end.

Definition print_year (y : Z) (rest : string) : string :=
  if (0 <=? y) && (y <=? 9999) then pad 4 y rest
  else String (if y <? 0 then "-"%char else "+"%char)
              (pad 6 (Z.abs y) rest).

(** [Date.prototype.toISOString], which [JSON.stringify] reaches
    through [toJSON], for a valid time value [t]. *)
Definition toISOString (t : Z) : string :=
  let '(y, m, d) := civil_from_days (t / msPerDay) in
  let ms := t mod msPerDay in
  let time :=
    pad 2 (ms / 3600000) (String ":" (pad 2 (ms / 60000 mod 60)
      (String ":" (pad 2 (ms / 1000 mod 60)
        (String "." (pad 3 (ms mod 1000) "Z")))))) in
  print_year y (String "-" (pad 2 m (String "-" (pad 2 d
    (String "T" time))))).

Definition digit_val (c : ascii) : option Z :=
  let n := N_of_ascii c in
  if ((48 <=? n) && (n <=? 57))%N then Some (Z.of_N n - 48) else None.

(** Exactly [w] digits, read onto [acc]. *)
Fixpoint read_fixed (w : nat) (s : string) (acc : Z) : option (Z * string) :=
  match w with
  | O => Some (acc, s)
  | S k =>
      match s with
      | String c r =>
          match digit_val c with
          | Some d => read_fixed k r (acc * 10 + d)
          | None => None
          end
      | EmptyString => None
      end
  end.

Definition sep (c : ascii) (s : string) : option string :=
  match s with
  | String c' r => if Ascii.eqb c c' then Some r else None
  | EmptyString => None
  end.

(** The year: four digits, or a sign and six digits that are not
    [-000000]. *)
Definition parse_year (s : string) : option (Z * string) :=
  match sep "+" s with
  | Some r => read_fixed 6 r 0
  | None =>
      match sep "-" s with
      | Some r =>
          match read_fixed 6 r 0 with
          | Some (y, r') => if y =? 0 then None else Some (- y, r')
          | None => None
          end
      | None => read_fixed 4 s 0
      end
  end.

Local Notation "'do' p <- e ; k" :=
  (match e with Some p => k | None => None end)
    (at level 10, p pattern, e at level 100, k at level 200).

(** [new Date (s)] on a string in the full date-time format with [Z]
    that [toISOString] writes: the time value. [None] stands for every
    other string, whose reading the language leaves to the
    implementation, and for a time out of range. *)
Definition parse (s : string) : option Z :=
  do (y, r) <- parse_year s;
  do r <- sep "-" r;
  do (m, r) <- read_fixed 2 r 0;
  do r <- sep "-" r;
  do (d, r) <- read_fixed 2 r 0;
  do r <- sep "T" r;
  do (hh, r) <- read_fixed 2 r 0;
  do r <- sep ":" r;
  do (mm, r) <- read_fixed 2 r 0;
  do r <- sep ":" r;
  do (ss, r) <- read_fixed 2 r 0;
  do r <- sep "." r;
  do (ms, r) <- read_fixed 3 r 0;
  do r <- sep "Z" r;
  match r with
  | EmptyString =>
      let fields_ok :=
        (1 <=? m) && (m <=? 12) && (1 <=? d) && (d <=? 31)
        && (mm <=? 59) && (ss <=? 59)
        && ((hh <=? 23)
            || (hh =? 24) && (mm =? 0) && (ss =? 0) && (ms =? 0)) in
      let t := days_from_civil y m d * msPerDay
               + hh * 3600000 + mm * 60000 + ss * 1000 + ms in
      if fields_ok && valid_timeb t then Some t else None
  | String _ _ => None
  end.

(** *** Notions used in the proofs about the calendar *)

(** What [ymd_of_doe] must give for one day of the cycle. *)
Definition cycle_ok (doe : Z) : bool :=
  let '(yoe, m, d) := ymd_of_doe doe in
  (0 <=? yoe) && (yoe <=? 399) && (1 <=? m) && (m <=? 12)
  && (1 <=? d) && (d <=? 31) && (doe_of_ymd yoe m d =? doe).

(** [cycle_ok] on the [n] days from [z] on. *)
Fixpoint check_from (n : nat) (z : Z) : bool :=
  match n with
  | O => true
  | S k => cycle_ok z && check_from k (z + 1)
  end.

End JsDate.

(** ** [localStorage] *)

Record Storage : Type := mkStorage {
  items : gmap string string;
  quota : N
}.

Module LocalStorage.

(** The space the items take, in code units of names and values. *)
Definition usage (m : gmap string string) : N :=
  map_fold (fun k v n => N.of_nat (String.length k + String.length v) + n)%N
           0%N m.

(** [localStorage.getItem (k)]; [None] is [null]. *)
Definition getItem (k : string) (st : Storage) : option string :=
  items st !! k.

(** [localStorage.setItem (k, v)]; [None] is a [QuotaExceededError],
    thrown when the items would take more than the quota. *)
Definition setItem (k v : string) (st : Storage) : option Storage :=
  let m := <[k := v]> (items st) in
  if (usage m <=? quota st)%N
  then Some {| items := m; quota := quota st |}
  else None.

End LocalStorage.

(** ** The two effects: restore and persist *)

Inductive Restored : Type :=
| Keep                              (* [setMessages] is not called *)
| Replace (parsed : list Message)   (* [setMessages (parsed)] *)
| Untyped                           (* the array does not hold [Message]s *)
| Unread.                           (* text that [Json.parse] leaves open *)

Module Persistence.

Import LocalStorage.

Definition key : string := "chat.messages".

Definition sender_tag (s : Sender) : string :=
  match s with user => "user" | bot => "bot" | loading => "loading" end.

Definition sender_of_tag (tag : string) : option Sender :=
  if String.eqb tag "user" then Some user
  else if String.eqb tag "bot" then Some bot
  else if String.eqb tag "loading" then Some loading
  else None.

(** How [JSON.stringify] sees a message: the own properties in their
    order, the [Date] through its [toJSON]. *)
Definition message_toJSON (m : Message) : json :=
  JObj [ ("id", JNum (id m)); ("text", text m);
         ("sender", JStr (sender_tag (sender m)));
         ("timestamp", JStr (JsDate.toISOString (timestamp m))) ].

(** [JSON.stringify (messages)] *)
Definition serialize (msgs : list Message) : string :=
  Json.stringify (JArr (map message_toJSON msgs)).

(** The second effect:
    [try { localStorage.setItem ('chat.messages', ...) } catch {}]. *)
Definition persist (msgs : list Message) (st : Storage) : Storage :=
  match setItem key (serialize msgs) st with
  | Some st' => st'
  | None => st
  end.

(** [(m: any) => ({ ...m, timestamp: new Date (m.timestamp) })], read
    as a [Message]: [None] when the object does not have exactly the
    four properties, with a number as [id], one of the three tags as
    [sender] and a date as [timestamp]; [text] is taken as it is. *)
Definition revive (m : json) : option Message :=
  match m with
  | JObj fields =>
      match Json.member "id" fields, Json.member "text" fields,
            Json.member "sender" fields, Json.member "timestamp" fields with
      | Some (JNum i), Some txt, Some (JStr tag), Some (JStr iso) =>
          match sender_of_tag tag, JsDate.parse iso with
          | Some sd, Some t =>
              if (length fields =? 4)%nat
              then Some {| id := i; text := txt; sender := sd;
                           timestamp := t |}
              else None
          | _, _ => None
          end
      | _, _, _, _ => None
      end
  | _ => None
  end.

Fixpoint revive_all (l : list json) : option (list Message) :=
  match l with
  | [] => Some []
  | m :: rest =>
      match revive m, revive_all rest with
      | Some x, Some xs => Some (x :: xs)
      | _, _ => None
      end
  end.

(** The first effect. Whatever throws inside [try] ([JSON.parse] on
    text that is not JSON, [.map] on a value that is not an array) is
    swallowed, and the default transcript stays. Where [Json.parse]
    reads nothing and the text has the start of a value, it may be
    JSON of the part that [Json.parse] does not cover, which the code
    would go on with: the result is [Unread], not [Keep]. *)
Definition restore (st : Storage) : Restored :=
  match getItem key st with
  | None => Keep
  | Some raw =>
      if String.eqb raw "" then Keep else
      match Json.parse raw with
      | Some (JArr l) =>
          match revive_all l with
          | Some [] => Keep
          | Some parsed => Replace parsed
          | None => Untyped
          end
      | Some _ => Keep
      | None => if Json.cannot_open raw then Keep else Unread
      end
  end.

End Persistence.

(** ** The conversation id *)

Inductive CidResult : Type :=
| Threw                                   (* [setItem] threw *)
| Returned (cid : string) (st : Storage). (* the value and the storage left *)

Module Session.

Import LocalStorage.

Definition key : string := "chat.conversation_id".

Definition is_base36 (c : ascii) : bool :=
  let n := N_of_ascii c in
  ((48 <=? n) && (n <=? 57) || (97 <=? n) && (n <=? 122))%N.

Fixpoint all_base36 (s : string) : bool :=
  match s with
  | EmptyString => true
  | String c r => is_base36 c && all_base36 r
  end.

(** The strings that [Math.random ().toString (36)] can be: the number
    is in [0, 1), so it prints as [0] or as [0.] and digits. *)
Definition is_draw (s : string) : bool :=
  match s with
  | String "0" EmptyString => true
  | String "0" (String "." (String c r)) => all_base36 (String c r)
  | _ => false
  end.

(** [getOrCreateCid]; [draw] is what [Math.random ().toString (36)]
    gives if it is evaluated. *)
Definition getOrCreateCid (draw : string) (st : Storage) : CidResult :=
  let generate :=
    let cid := Js.slice 2 draw in
    match setItem key cid st with
    | Some st' => Returned cid st'
    | None => Threw
    end in
  match getItem key st with
  | Some cid => if String.eqb cid "" then generate else Returned cid st
  | None => generate
  end.

End Session.

(** ** What React can draw *)

Module ReactChild.

(** The values that React takes as the child of an element: a string
    or a number is drawn as its text, [null] and the booleans as
    nothing, an array element by element; an object makes the render
    throw, and with no error boundary the whole tree is unmounted. *)
Fixpoint valid (v : json) : bool :=
  match v with
  | JObj _ => false
  | JArr l => forallb valid l
  | _ => true
  end.

(** [{message.sender === 'loading' ? 'Thinking…' : message.text}] *)
Definition child (m : Message) : json :=
  if Sender_eqb (sender m) loading then "Thinking…" else text m.

(** The render of the transcript does not throw. *)
Definition draws (msgs : list Message) : bool :=
  forallb (fun m => valid (child m)) msgs.

End ReactChild.

(** ** The page: the component together with the storage *)

Record World : Type := mkWorld {
  ui : State;
  store : Storage
}.

Module Page.

Import Persistence.

(** Loading the page on storage [st]: the first render, the two
    effects in their order (the first reads before the second writes
    the default transcript), and, when the first one called
    [setMessages], the render that follows with its persist effect.
    [None] where the stored text is left open or the stored array is
    not a [Message[]], and where the render of what was restored
    throws: the page is then blank. *)
Definition mount (t0 : Z) (st : Storage) : option World :=
  let s0 := App.initial t0 in
  let found := restore st in
  let st1 := persist (messages s0) st in
  match found with
  | Keep => Some {| ui := s0; store := st1 |}
  | Replace parsed =>
      if ReactChild.draws parsed
      then Some {| ui := App.setMessages (fun _ => parsed) s0;
                   store := persist parsed st1 |}
      else None
  | Untyped | Unread => None
  end.

Inductive Event : Type :=
| Ui (e : App.Event)     (* an event of the mounted component *)
| Reload (t0 : Z).       (* the page is loaded again *)

(** One event of the page. The persist effect runs after a render in
    which [messages] is a new array: after the handler has appended
    (it returns before that on a blank draft), and after the request
    has settled. An effect runs only after a render that did not
    throw: where React cannot draw the new state the result is [None],
    the page is blank. A reload drops the component,
    and with it a suspended continuation; the storage stays. *)
Definition step (w : World) (e : Event) : option World :=
  match e with
  | Ui (App.Typed draft) =>
      match App.step (ui w) (App.Typed draft) with
      | Some s' =>
          if ReactChild.draws (messages s')
          then Some {| ui := s'; store := store w |}
          else None
      | None => None
      end
  | Ui (App.Send t1 t2) =>
      match App.step (ui w) (App.Send t1 t2) with
      | Some s' =>
          if ReactChild.draws (messages s')
          then Some {| ui := s';
                       store := if String.eqb (Js.trim (input (ui w))) ""
                                then store w
                                else persist (messages s') (store w) |}
          else None
      | None => None
      end
  | Ui (App.Settled r now) =>
      match App.step (ui w) (App.Settled r now) with
      | Some s' =>
          if ReactChild.draws (messages s')
          then Some {| ui := s'; store := persist (messages s') (store w) |}
          else None
      | None => None
      end
  | Reload t0 =>
      if valid_timeb t0 then mount t0 (store w) else None
  end.

Fixpoint run (w : World) (es : list Event) : option World :=
  match es with
  | [] => Some w
  | e :: rest =>
      match step w e with
      | Some w' => run w' rest
      | None => None
      end
  end.

End Page.

(** ** The rest of the component: the history sent along, the keyboard,
    what is shown *)

(** One entry of the history: [{ role, content }]. *)
Record Turn : Type := mkTurn {
  role : string;
  content : json
}.

Module Memory.

(** [l.slice (-n)]: the last [n] elements, all of them when there are
    fewer. *)
Definition slice_last {A : Type} (n : nat) (l : list A) : list A :=
  skipn (length l - n) l.

(** [m => ({ role: m.sender === 'user' ? 'user' : 'assistant',
             content: m.text })] *)
Definition turn (m : Message) : Turn :=
  {| role := if Sender_eqb (sender m) user then "user" else "assistant";
     content := text m |}.

(** The array [memory] that [handleSendMessage] builds after its guard:
    [[...messages, newUserMessage].filter (m => m.sender !== 'loading')
       .slice (-16).map (...)]. *)
Definition memory (s : State) (t_user : Z) : list Turn :=
  map turn
    (slice_last 16
       (List.filter App.not_loading
          (messages s ++ [App.newUserMessage s t_user]))).

End Memory.

(** What [handleKeyPress] reads of a [React.KeyboardEvent]. *)
Record KeyboardEvent : Type := mkKeyboardEvent {
  key : string;
  shiftKey : bool
}.

Module Keyboard.

(** [handleKeyPress]: whether [e.preventDefault ()] was called, and what
    [handleSendMessage] did if it was called. *)
Definition handleKeyPress (e : KeyboardEvent) (s : State) (t_user t_loading : Z)
  : bool * (State * option Request) :=
  if String.eqb (key e) "Enter" && negb (shiftKey e)
  then (true, App.handleSendMessage s t_user t_loading)
  else (false, (s, None)).

End Keyboard.

(** One message as it is drawn: the React key, the class of the box,
    the child that is its text and, for the line with the time, its
    class and its text. *)
Record Row : Type := mkRow {
  row_key : Z;
  row_class : string;
  row_text : json;
  row_time : option (string * string)
}.

Module View.

Section Locale.

(** [date.toLocaleTimeString ([], { hour: '2-digit', minute: '2-digit' })],
    which depends on the locale and the time zone of the browser. *)
Variable toLocaleTimeString : Z -> string.

Definition row (m : Message) : Row :=
  {| row_key := id m;
     row_class :=
       "message-container "
         +:+ match sender m with
             | user => "user-message"
             | bot => "bot-message"
             | loading => "loading-message"
             end;
     row_text :=
       if Sender_eqb (sender m) loading then "Thinking…" else text m;
     row_time :=
       if negb (Sender_eqb (sender m) loading)
       then Some ("message-timestamp "
                    +:+ (if Sender_eqb (sender m) user
                         then "user-timestamp" else "bot-timestamp"),
                  toLocaleTimeString (timestamp m))
       else None |}.

(** [messages.map (message => ...)] *)
Definition rows (s : State) : list Row := map row (messages s).

End Locale.

(** [disabled={loading}] on the text field. *)
Definition input_disabled (s : State) : bool := loading_flag s.

(** [disabled={input.trim () === '' || loading}] on the send button. *)
Definition send_disabled (s : State) : bool :=
  String.eqb (Js.trim (input s)) "" || loading_flag s.

End View.

(** ** Notions used in the proofs about sessions *)

Module Session_shape.

(** While a request is out: the transcript ends with the question and
    the placeholder, the request carries the text of that question, and
    the draft is empty. *)
Definition waiting_shape (s : State) : Prop :=
  loading_flag s = true ->
  exists base u l (q : string),
    messages s = base ++ [u; l]
    /\ App.count_loading base = 0%nat
    /\ sender u = user /\ sender l = loading
    /\ text u = q /\ inflight s = Some {| question := q |}
    /\ input s = "".

(** While no request is out: past the greeting, the last message is a
    bot message whose id is the length of the transcript plus one. *)
Definition last_id_ahead (s : State) : Prop :=
  loading_flag s = false ->
  (1 < length (messages s))%nat ->
  exists b,
    last (messages s) = Some b /\ sender b = bot
    /\ id b = App.length_plus (messages s) 1.

End Session_shape.

Module Sync.

(** The stored text is the serialized transcript. *)
Definition synced (w : World) : Prop :=
  LocalStorage.getItem Persistence.key (store w)
  = Some (Persistence.serialize (messages (ui w))).

(** Nothing that [restore] would take is stored: no text, the empty
    text, text that no JSON value can start, or text that reads as a
    value that is not an array with an element. *)
Definition nothing_saved (st : Storage) : Prop :=
  match LocalStorage.getItem Persistence.key st with
  | None => True
  | Some raw =>
      raw = "" \/ Json.cannot_open raw = true
      \/ Json.parse raw = Some (JArr [])
      \/ exists v, Json.parse raw = Some v /\ forall l, v <> JArr l
  end.

End Sync.

(** ** The first revision of the component: the echo

    [src/chatbotfe/src/App.tsx] answers by itself, one second after a
    message is sent, from a [setTimeout] callback. *)

(** What a callback holds of the render it was created in. *)
Record Timer : Type := mkTimer {
  due_id : Z;          (* [messages.length + 2] *)
  due_input : string   (* [input] *)
}.

(** The two [useState] cells and the callbacks waiting in the timer
    queue, the oldest first. All have the same delay, so they run in the
    order they were set. *)
Record EchoState : Type := mkEchoState {
  e_messages : list Message;
  e_input : string;
  e_timers : list Timer
}.

Module Echo.

Definition greeting : string := "Hello! How can I help you today?".

Definition initial (t0 : Z) : EchoState :=
  {| e_messages := [ {| id := 1; text := greeting; sender := bot;
                        timestamp := t0 |} ];
     e_input := "";
     e_timers := [] |}.

(** [`I received your message: "${input}"`] *)
Definition echo_text (input : string) : string :=
  "I received your message: "
    +:+ String Json.dquote (input +:+ String Json.dquote EmptyString).

(** [handleSendMessage]: [setMessages ([...messages, newUserMessage])],
    [setInput ('')], [setTimeout (..., 1000)]. *)
Definition handleSendMessage (s : EchoState) (now : Z) : EchoState :=
  if String.eqb (Js.trim (e_input s)) "" then s else
  let newUserMessage :=
    {| id := Z.of_nat (length (e_messages s)) + 1; text := e_input s;
       sender := user; timestamp := now |} in
  {| e_messages := e_messages s ++ [newUserMessage];
     e_input := "";
     e_timers := e_timers s
                   ++ [ {| due_id := Z.of_nat (length (e_messages s)) + 2;
                           due_input := e_input s |} ] |}.

(** The callback: [setMessages (prev => [...prev, newBotMessage])]. *)
Definition fire (tm : Timer) (s : EchoState) (now : Z) : EchoState :=
  {| e_messages :=
       e_messages s
         ++ [ {| id := due_id tm; text := echo_text (due_input tm);
                 sender := bot; timestamp := now |} ];
     e_input := e_input s;
     e_timers := e_timers s |}.

Inductive Event : Type :=
| Typed (draft : string)   (* [onChange] *)
| Send (now : Z)           (* click or Enter *)
| Fire (now : Z).          (* the oldest timer runs *)

Definition step (s : EchoState) (e : Event) : option EchoState :=
  match e with
  | Typed draft =>
      Some {| e_messages := e_messages s; e_input := draft;
              e_timers := e_timers s |}
  | Send now => Some (handleSendMessage s now)
  | Fire now =>
      match e_timers s with
      | tm :: rest =>
          Some (fire tm {| e_messages := e_messages s; e_input := e_input s;
                           e_timers := rest |} now)
      | [] => None
      end
  end.

Fixpoint run (s : EchoState) (es : list Event) : option EchoState :=
  match es with
  | [] => Some s
  | e :: rest =>
      match step s e with
      | Some s' => run s' rest
      | None => None
      end
  end.

Inductive reachable : EchoState -> Prop :=
| reachable_initial t0 : reachable (initial t0)
| reachable_step s e s' :
    reachable s -> step s e = Some s' -> reachable s'.

Definition count_sender (sd : Sender) (l : list Message) : nat :=
  length (List.filter (fun m => Sender_eqb (sender m) sd) l).

(** One message typed, sent and answered before the next. *)
Definition exchange (x : string * Z * Z) : list Event :=
  let '(draft, t_send, t_fire) := x in
  [Typed draft; Send t_send; Fire t_fire].

(** No timer waits, and the ids are the positions, from 1. *)
Definition tidy (s : EchoState) : Prop :=
  e_timers s = []
  /\ List.map id (e_messages s)
     = List.map Z.of_nat (seq 1 (length (e_messages s))).

End Echo.

(** ** The connection check

    The script that pings the database; what the driver does is given
    by the environment. *)

Inductive Effect : Type :=
| Connect                (* [client.connect ()] *)
| PingCommand            (* [client.db ("admin").command ({ ping: 1 })] *)
| Log (line : string)    (* [console.log] *)
| Close                  (* [client.close ()] *)
| Dir (error : string).  (* [console.dir], from [run ().catch] *)

(** The error each call of the driver rejects with, if it does. *)
Record Driver : Type := mkDriver {
  connect_error : option string;
  ping_error : option string;
  close_error : option string
}.

Module Ping.

Definition success : string :=
  "Pinged your deployment. You successfully connected to MongoDB!".

(** The [try] block: the calls made and the error thrown, if any. *)
Definition attempt (d : Driver) : list Effect * option string :=
  match connect_error d with
  | Some e => ([Connect], Some e)
  | None =>
      match ping_error d with
      | Some e => ([Connect; PingCommand], Some e)
      | None => ([Connect; PingCommand; Log success], None)
      end
  end.

(** [run]: [try { ... } finally { await client.close () }]. What
    [close] throws replaces what the [try] block threw. *)
Definition run (d : Driver) : list Effect * option string :=
  let '(done, thrown) := attempt d in
  (done ++ [Close],
   match close_error d with
   | Some e => Some e
   | None => thrown
   end).

(** [run ().catch (console.dir)] *)
Definition main (d : Driver) : list Effect :=
  let '(done, thrown) := run d in
  match thrown with
  | Some e => done ++ [Dir e]
  | None => done
  end.

Definition count_close (l : list Effect) : nat :=
  length (List.filter (fun e => match e with Close => true | _ => false end) l).

End Ping.

(** ** A session used in examples *)

Module Scenario.

(** 2026-11-02T12:00:00.000Z *)
Definition t0 : Z := 1793620800000.

Definition hello : Message :=
  {| id := 2; text := "hello"; sender := user; timestamp := t0 + 5000 |}.

Definition placeholder : Message :=
  {| id := 3; text := App.typing_text; sender := loading;
     timestamp := t0 + 5001 |}.

(** The state after [hello] has been typed and sent. *)
Definition awaiting : State :=
  {| messages := messages (App.initial t0) ++ [hello; placeholder];
     input := "";
     loading_flag := true;
     inflight := Some {| question := "hello" |} |}.

Definition hi_there : json := JObj [("response", JStr "hi there")].

Definition empty_storage : Storage := {| items := ∅; quota := 5000000 |}.

End Scenario.

(** * Properties *)

(** ** The models of the library functions on examples *)

Section Examples.

Example trim_examples :
  Js.trim "  hello world   " = "hello world"
  /\ Js.trim "   " = ""
  /\ Js.trim (String "009" (String "010" "x y")) = "x y"
  /\ Js.trim (String "194" (String "160" "a")) = "a"
  /\ Js.trim "" = "".
Proof. repeat split. Qed.

Example stringify_example :
  Json.stringify
    (JArr [JNum 1; JNum (-20); JBool true; JNull; JArr []; JObj []])
  = "[1,-20,true,null,[],{}]".
Proof. reflexivity. Qed.

Example parse_examples :
  Json.parse " [ 1 , [ ] , false ] " = Some (JArr [JNum 1; JArr []; JBool false])
  /\ Json.parse "-0" = Some (JNum 0)
  /\ Json.parse "01" = None
  /\ Json.parse "[1,]" = None
  /\ Json.parse "nul" = None
  /\ Json.parse "" = None.
Proof. repeat split. Qed.

Example toISOString_examples :
  JsDate.toISOString 0 = "1970-01-01T00:00:00.000Z"
  /\ JsDate.toISOString (-1) = "1969-12-31T23:59:59.999Z"
  /\ JsDate.toISOString 951782400000 = "2000-02-29T00:00:00.000Z"
  /\ JsDate.toISOString 1700000000000 = "2023-11-14T22:13:20.000Z"
  /\ JsDate.toISOString Scenario.t0 = "2026-11-02T12:00:00.000Z"
  /\ JsDate.toISOString 8640000000000000 = "+275760-09-13T00:00:00.000Z"
  /\ JsDate.toISOString (-8640000000000000) = "-271821-04-20T00:00:00.000Z".
Proof. repeat split. Qed.

Example Date_parse_examples :
  JsDate.parse "2026-11-02T12:00:00.000Z" = Some Scenario.t0
  /\ JsDate.parse "1970-01-01T00:00:00.000Z" = Some 0
  /\ JsDate.parse "+275760-09-13T00:00:00.001Z" = None
  /\ JsDate.parse "2026-13-02T12:00:00.000Z" = None
  /\ JsDate.parse "not a date" = None.
Proof. repeat split. Qed.

(** The exchange of the specification: hello, then a reply. *)
Example exchange_resolved :
  App.run (App.initial Scenario.t0)
          [ App.Typed "hello";
            App.Send (Scenario.t0 + 5000) (Scenario.t0 + 5001);
            App.Settled (Body Scenario.hi_there) (Scenario.t0 + 9000) ]
  = Some {| messages :=
              [ {| id := 1; text := App.greeting; sender := bot;
                   timestamp := Scenario.t0 |};
                Scenario.hello;
                {| id := 4; text := "hi there"; sender := bot;
                   timestamp := Scenario.t0 + 9000 |} ];
            input := ""; loading_flag := false; inflight := None |}.
Proof. reflexivity. Qed.

(** The same exchange with a body that has no [response]. *)
Example exchange_without_reply :
  option_map (fun s => map text (messages s))
    (App.run (App.initial Scenario.t0)
             [ App.Typed "hello";
               App.Send (Scenario.t0 + 5000) (Scenario.t0 + 5001);
               App.Settled (Body (JObj [])) (Scenario.t0 + 9000) ])
  = Some [ JStr App.greeting; JStr "hello";
           JStr "Sorry, no response received." ].
Proof. reflexivity. Qed.

(** A reply that is a number becomes the text as it is, and is drawn;
    a reply that is an object becomes the text too, and React cannot
    draw it. *)
Example exchange_with_other_replies :
  option_map (fun s => (map text (messages s), loading_flag s,
                        ReactChild.draws (messages s)))
    (App.step Scenario.awaiting
       (App.Settled (Body (JObj [("response", JNum 5)])) (Scenario.t0 + 9000)))
  = Some ([JStr App.greeting; JStr "hello"; JNum 5], false, true)
  /\ option_map (fun s => (map text (messages s), loading_flag s,
                           ReactChild.draws (messages s)))
       (App.step Scenario.awaiting
          (App.Settled (Body (JObj [("response", JObj [])]))
             (Scenario.t0 + 9000)))
     = Some ([JStr App.greeting; JStr "hello"; JObj []], false, false)
  /\ Page.step {| ui := Scenario.awaiting; store := Scenario.empty_storage |}
       (Page.Ui (App.Settled (Body (JObj [("response", JObj [])]))
                   (Scenario.t0 + 9000)))
     = None.
Proof. split; [reflexivity|]. split; reflexivity. Qed.

End Examples.

(** ** [JSON.parse] reads back what [JSON.stringify] writes *)

Section JsonRoundTrip.

Import Json.

Lemma json_induction (P : json -> Prop) :
  P JNull -> (forall b, P (JBool b)) -> (forall n, P (JNum n)) ->
  (forall s, P (JStr s)) ->
  (forall l, Forall P l -> P (JArr l)) ->
  (forall fs, Forall (fun kv => P (snd kv)) fs -> P (JObj fs)) ->
  forall v, P v.
Proof.
  intros Hn Hb Hz Hs Ha Ho. fix IH 1. intros [ | b | n | s | l | fs ].
  - exact Hn.
  - apply Hb.
  - apply Hz.
  - apply Hs.
  - apply Ha. revert l. fix IHl 1. intros [|x l].
    + constructor.
    + constructor; [apply IH | apply IHl].
  - apply Ho. revert fs. fix IHl 1. intros [|kv fs].
    + constructor.
    + constructor; [apply IH | apply IHl].
Qed.

(** *** Strings *)

Lemma parse_quote_char (c : ascii) (X : string) :
  parse_string (quote_char c X)
  = match parse_string X with
    | Some (str, r') => Some (String c str, r')
    | None => None
    end.
Proof. destruct c as [[] [] [] [] [] [] [] []]; reflexivity. Qed.

Lemma parse_quote_body (s rest : string) :
  parse_string (quote_body s (String dquote rest)) = Some (s, rest).
Proof.
  induction s as [|c s IH]; cbn [quote_body].
  - reflexivity.
  - rewrite parse_quote_char, IH. reflexivity.
Qed.

(** *** Numbers *)

Lemma read_print_uint (d : Decimal.uint) (rest : string) :
  terminated rest = true -> read_digits (print_uint d rest) = (d, rest).
Proof.
  intros T. induction d as [|d IH|d IH|d IH|d IH|d IH|d IH|d IH|d IH|d IH|d IH];
    cbn [print_uint]; try (cbn [read_digits digit_of]; simpl; rewrite IH; reflexivity).
  destruct rest as [|c r]; [reflexivity|]. cbn [read_digits].
  unfold terminated in T. destruct (digit_of c); [discriminate|reflexivity].
Qed.

Lemma to_uint_no_leading_zero (p : positive) (d : Decimal.uint) :
  Pos.to_uint p <> Decimal.D0 d.
Proof.
  intros E.
  assert (U : Pos.to_uint p = Decimal.unorm (Pos.to_uint p)).
  { rewrite <- (DecimalPos.Unsigned.to_of (Pos.to_uint p)).
    rewrite DecimalPos.Unsigned.of_to. reflexivity. }
  rewrite E in U. rewrite DecimalFacts.unorm_D0 in U. unfold Decimal.unorm in U.
  destruct (Decimal.nzhead d) eqn:Z;
    try (symmetry in U; rewrite <- Z in U;
         exact (DecimalFacts.nzhead_nonzero _ _ U)).
  inversion U; subst d.
  exact (DecimalPos.Unsigned.to_uint_nonzero p E).
Qed.

Lemma parse_unsigned_print (d : Decimal.uint) (rest : string) :
  d <> Decimal.Nil -> (forall d', d = Decimal.D0 d' -> d' = Decimal.Nil) ->
  terminated rest = true ->
  parse_unsigned (print_uint d rest) = Some (d, rest).
Proof.
  intros Hn Hz T. unfold parse_unsigned. rewrite (read_print_uint d rest T).
  assert (E : number_ends rest = true).
  { destruct rest; [reflexivity|]. unfold terminated in T.
    apply andb_true_iff in T. apply T. }
  destruct d; try contradiction; rewrite ?E; try reflexivity.
  rewrite (Hz d eq_refl). reflexivity.
Qed.

Lemma starts_minus_print_uint (d : Decimal.uint) (rest : string) :
  d <> Decimal.Nil -> starts "-" (print_uint d rest) = None.
Proof. destruct d; [contradiction|..]; reflexivity. Qed.

Lemma parse_number_print (n : Z) (rest : string) :
  terminated rest = true ->
  parse_number (print_int n rest) = Some (JNum n, rest).
Proof.
  intros T. unfold parse_number, print_int.
  destruct n as [|p|p]; cbn [Z.to_int].
  - rewrite starts_minus_print_uint by discriminate.
    rewrite parse_unsigned_print; [reflexivity|discriminate| |exact T].
    intros d' H. inversion H. reflexivity.
  - rewrite starts_minus_print_uint by apply DecimalPos.Unsigned.to_uint_nonnil.
    rewrite parse_unsigned_print; [| apply DecimalPos.Unsigned.to_uint_nonnil | | exact T].
    + change (Decimal.Pos (Pos.to_uint p)) with (Z.to_int (Z.pos p)).
      rewrite DecimalZ.of_to. reflexivity.
    + intros d' H. exfalso. exact (to_uint_no_leading_zero p d' H).
  - cbn [starts]. simpl Ascii.eqb. cbv iota.
    rewrite parse_unsigned_print; [| apply DecimalPos.Unsigned.to_uint_nonnil | | exact T].
    + change (Decimal.Neg (Pos.to_uint p)) with (Z.to_int (Z.neg p)).
      rewrite DecimalZ.of_to. reflexivity.
    + intros d' H. exfalso. exact (to_uint_no_leading_zero p d' H).
Qed.

(** *** Values *)

Lemma opens_skip_ws (s : string) : opens s = true -> skip_ws s = s.
Proof.
  destruct s as [|c r]; [discriminate|]. cbn [opens skip_ws].
  destruct (is_ws c); [discriminate|reflexivity].
Qed.

Lemma opens_not_closed (s : string) :
  opens s = true -> starts "]" s = None /\ starts "}" s = None.
Proof.
  destruct s as [|c r]; [discriminate|]. cbn [opens starts].
  destruct (Ascii.eqb "]" c), (Ascii.eqb "}" c), (is_ws c);
    try discriminate; auto.
Qed.

Lemma print_int_head (n : Z) (rest : string) :
  exists c r, print_int n rest = String c r /\ number_start c = true.
Proof.
  unfold print_int. destruct n as [|p|p]; cbn [Z.to_int].
  - eexists _, _. split; reflexivity.
  - pose proof (DecimalPos.Unsigned.to_uint_nonnil p) as H.
    destruct (Pos.to_uint p); [contradiction|..];
      eexists _, _; split; reflexivity.
  - eexists _, _. split; reflexivity.
Qed.

Lemma number_start_dispatch (c : ascii) (r : string) (f : nat) :
  number_start c = true ->
  parse_value (S f) (String c r) = parse_number (String c r)
  /\ opens (String c r) = true.
Proof.
  destruct c as [[] [] [] [] [] [] [] []]; intros H;
    try discriminate H; split; reflexivity.
Qed.

Lemma print_opens (v : json) (rest : string) : opens (print v rest) = true.
Proof.
  destruct v as [ | [] | n | s | l | fs ]; try reflexivity.
  destruct (print_int_head n rest) as (c & r & E & H).
  cbn [print]. rewrite E.
  apply (number_start_dispatch c r 0 H).
Qed.

Lemma tail_terminated {A : Type} (pr : A -> string -> string)
      (close : ascii) (xs : list A) (rest : string) :
  close = "]"%char \/ close = "}"%char ->
  terminated (print_tail pr close xs rest) = true.
Proof. intros [-> | ->]; destruct xs; reflexivity. Qed.

Lemma skip_dquote (X : string) :
  skip_ws (String dquote X) = String dquote X.
Proof. reflexivity. Qed.

Lemma starts_dquote (X : string) : starts dquote (String dquote X) = Some X.
Proof. reflexivity. Qed.

Lemma parse_elements_print (xs : list json) :
  Forall reads_back xs ->
  forall x fuel rest,
    reads_back x ->
    (list_sum (map (fun y => S (size y)) (x :: xs)) <= fuel)%nat ->
    terminated rest = true ->
    parse_elements fuel (print x (print_tail print "]" xs rest))
    = Some (x :: xs, rest).
Proof.
  induction 1 as [|y ys Hy Hys IH]; intros x fuel rest Hx Hf T;
    (destruct fuel as [|f]; [simpl in Hf; lia|]); cbn [parse_elements].
  - rewrite Hx; [|simpl in Hf |- *; lia|apply tail_terminated; auto].
    reflexivity.
  - rewrite Hx; [|simpl in Hf |- *; lia|apply tail_terminated; auto].
    cbn [print_tail skip_ws is_ws starts]. simpl Ascii.eqb. cbv iota.
    rewrite (IH y f rest Hy); [reflexivity| |exact T].
    simpl in Hf |- *. lia.
Qed.

Lemma parse_members_print (kvs : list (string * json)) :
  let field (kv : string * json) (r : string) :=
    quote (fst kv) (String ":" (print (snd kv) r)) in
  Forall (fun kv => reads_back (snd kv)) kvs ->
  forall kv fuel rest,
    reads_back (snd kv) ->
    (list_sum (map (fun y => S (size (snd y))) (kv :: kvs)) <= fuel)%nat ->
    terminated rest = true ->
    parse_members fuel (field kv (print_tail field "}" kvs rest))
    = Some (kv :: kvs, rest).
Proof.
  intros field.
  induction 1 as [|y ys Hy Hys IH]; intros [k x] fuel rest Hx Hf T;
    (destruct fuel as [|f]; [simpl in Hf; lia|]); cbn [parse_members];
    unfold field at 1; cbn [fst snd]; unfold quote;
    rewrite skip_dquote, starts_dquote, parse_quote_body;
    cbn [skip_ws is_ws starts]; simpl Ascii.eqb; cbv iota.
  - rewrite Hx; [|simpl in Hf |- *; lia|apply tail_terminated; auto].
    reflexivity.
  - rewrite Hx; [|simpl in Hf |- *; lia|apply tail_terminated; auto].
    cbn [print_tail skip_ws is_ws starts]. simpl Ascii.eqb. cbv iota.
    rewrite (IH y f rest Hy); [reflexivity| |exact T].
    simpl in Hf |- *. lia.
Qed.

Lemma parse_print (v : json) : reads_back v.
Proof.
  induction v as [ | b | n | s | l IH | fs IH ] using json_induction;
    intros fuel rest Hf T; (destruct fuel as [|f]; [simpl in Hf; lia|]).
  - reflexivity.
  - destruct b; reflexivity.
  - destruct (print_int_head n rest) as (c & r & E & H).
    cbn [print]. destruct (number_start_dispatch c r f H) as [D O].
    rewrite E, D, <- E. apply parse_number_print. exact T.
  - cbn [print parse_value]. unfold quote. rewrite skip_dquote.
    change (Ascii.eqb dquote "n") with false.
    change (Ascii.eqb dquote "t") with false.
    change (Ascii.eqb dquote "f") with false.
    change (Ascii.eqb dquote dquote) with true. cbv iota.
    rewrite parse_quote_body. reflexivity.
  - destruct l as [|x xs]; [reflexivity|].
    cbn [print parse_value skip_ws is_ws]. simpl Ascii.eqb. cbv iota.
    pose proof (print_opens x (print_tail print "]" xs rest)) as O.
    rewrite (opens_skip_ws _ O).
    destruct (opens_not_closed _ O) as [-> _].
    inversion IH as [|? ? Hx Hxs]; subst.
    rewrite (parse_elements_print xs Hxs x f rest Hx); [reflexivity| |exact T].
    simpl in Hf |- *. lia.
  - destruct fs as [|kv kvs]; [reflexivity|].
    cbn [print parse_value skip_ws is_ws]. simpl Ascii.eqb. cbv iota.
    inversion IH as [|? ? Hx Hxs]; subst.
    rewrite (parse_members_print kvs Hxs kv f rest Hx); [reflexivity| |exact T].
    simpl in Hf |- *. lia.
Qed.

(** *** The fuel that [parse] starts with is enough *)

Lemma length_quote_char (c : ascii) (X : string) :
  (String.length X < String.length (quote_char c X))%nat.
Proof.
  unfold quote_char.
  repeat (match goal with |- context [if ?b then _ else _] => destruct b end);
    cbn [String.length]; lia.
Qed.

Lemma length_quote_body (s rest : string) :
  (String.length rest <= String.length (quote_body s rest))%nat.
Proof.
  induction s as [|c s IH]; cbn [quote_body]; [lia|].
  pose proof (length_quote_char c (quote_body s rest)). lia.
Qed.

Lemma length_print_uint (d : Decimal.uint) (rest : string) :
  (String.length rest <= String.length (print_uint d rest))%nat
  /\ (d <> Decimal.Nil ->
      String.length rest < String.length (print_uint d rest))%nat.
Proof.
  induction d; cbn [print_uint String.length];
    (split; [lia|intros; try contradiction; lia]).
Qed.

Lemma length_print_int (n : Z) (rest : string) :
  (String.length rest < String.length (print_int n rest))%nat.
Proof.
  unfold print_int. destruct n as [|p|p]; cbn [Z.to_int String.length].
  - cbn. lia.
  - apply length_print_uint, DecimalPos.Unsigned.to_uint_nonnil.
  - pose proof (proj1 (length_print_uint (Pos.to_uint p) rest)). lia.
Qed.

Lemma length_print_tail {A : Type} (pr : A -> string -> string)
      (sz : A -> nat) (close : ascii) (xs : list A) :
  Forall (fun x => forall rest,
              (sz x + String.length rest <= String.length (pr x rest))%nat) xs ->
  forall rest,
    (list_sum (map (fun x => S (sz x)) xs) + String.length rest
     < String.length (print_tail pr close xs rest))%nat.
Proof.
  induction 1 as [|x xs Hx _ IH]; intros rest;
    cbn [print_tail map list_sum fold_right String.length]; [lia|].
  specialize (Hx (print_tail pr close xs rest)). specialize (IH rest).
  unfold list_sum in IH. lia.
Qed.

Lemma print_long_enough (v : json) : long_enough v.
Proof.
  induction v as [ | b | n | s | l IH | fs IH ] using json_induction;
    intros rest.
  - cbv [print String.append size String.length]. lia.
  - destruct b; cbv [print String.append size String.length]; lia.
  - cbn [print size]. pose proof (length_print_int n rest). lia.
  - cbn [print size]. unfold quote. cbn [String.length].
    pose proof (length_quote_body s (String dquote rest)).
    cbn [String.length] in *. lia.
  - destruct l as [|x xs]; [cbn; lia|].
    inversion IH as [|? ? Hx Hxs]; subst.
    cbn [print size map list_sum fold_right String.length].
    specialize (Hx (print_tail print "]" xs rest)).
    pose proof (length_print_tail print size "]" xs Hxs rest) as L.
    unfold list_sum in L. lia.
  - destruct fs as [|[k x] kvs]; [cbn; lia|].
    inversion IH as [|? ? Hx Hxs]; subst.
    cbn [print size map list_sum fold_right String.length fst snd] in *.
    set (field := fun (kv : string * json) (r : string) =>
                    quote (fst kv) (String ":" (print (snd kv) r))).
    assert (F : Forall (fun kv => forall rest,
                 (size (snd kv) + String.length rest
                  <= String.length (field kv rest))%nat) kvs).
    { eapply Forall_impl; [exact Hxs|]. intros [k' x'] H r. unfold field, quote.
      cbn [fst snd String.length] in *. specialize (H r).
      pose proof (length_quote_body k' (String dquote (String ":" (print x' r)))).
      cbn [String.length] in *. lia. }
    pose proof (length_print_tail field (fun kv => size (snd kv)) "}" kvs F rest)
      as L.
    unfold list_sum in L. unfold quote. cbn [String.length].
    pose proof (length_quote_body k
      (String dquote (String ":" (print x (print_tail field "}" kvs rest))))).
    specialize (Hx (print_tail field "}" kvs rest)).
    cbn [String.length] in *. lia.
Qed.

(** [JSON.parse (JSON.stringify (v))] is [v]. *)
Lemma parse_stringify (v : json) : parse (stringify v) = Some v.
Proof.
  unfold parse, stringify. rewrite (parse_print v); [reflexivity| |reflexivity].
  pose proof (print_long_enough v ""). lia.
Qed.

Lemma stringify_not_empty (v : json) : stringify v <> "".
Proof.
  unfold stringify. pose proof (print_long_enough v "") as H.
  destruct (print v ""); [|discriminate].
  destruct v; cbn in H; lia.
Qed.

End JsonRoundTrip.

(** ** [new Date] reads back what [toISOString] writes *)

Section DateRoundTrip.

Import JsDate.

Lemma check_from_sound (n : nat) (z : Z) :
  check_from n z = true ->
  forall i, z <= i < z + Z.of_nat n -> cycle_ok i = true.
Proof.
  revert z. induction n as [|n IH]; intros z H i Hi; [lia|].
  cbn [check_from] in H. apply andb_true_iff in H. destruct H as [H0 H1].
  destruct (Z.eq_dec i z) as [->|Hne]; [exact H0|].
  apply (IH (z + 1) H1). lia.
Qed.

Lemma cycle_checked : check_from (Z.to_nat 146097) 0 = true.
Proof. vm_compute. reflexivity. Qed.

Lemma cycle_ok_all (doe : Z) : 0 <= doe < 146097 -> cycle_ok doe = true.
Proof.
  intros H. apply (check_from_sound _ 0 cycle_checked).
  rewrite Z2Nat.id; lia.
Qed.

(** The calendar date of a day number gives the day number back, and
    its month and day are in range. *)
Lemma days_from_civil_from_days (z : Z) :
  let '(y, m, d) := civil_from_days z in
  days_from_civil y m d = z
  /\ 1 <= m <= 12 /\ 1 <= d <= 31
  /\ (z + 719468) / 146097 * 400 <= y <= (z + 719468) / 146097 * 400 + 400.
Proof.
  unfold civil_from_days.
  pose proof (Z.mod_pos_bound (z + 719468) 146097 ltac:(lia)) as Hdoe.
  pose proof (cycle_ok_all _ Hdoe) as C. unfold cycle_ok in C.
  destruct (ymd_of_doe ((z + 719468) mod 146097)) as [[yoe m] d].
  repeat (apply andb_true_iff in C; destruct C as [C ?]).
  unfold days_from_civil.
  set (era := (z + 719468) / 146097) in *.
  assert (E : yoe + era * 400 + (if m <=? 2 then 1 else 0)
              - (if m <=? 2 then 1 else 0) = yoe + era * 400) by lia.
  rewrite E.
  assert (Q : (yoe + era * 400) / 400 = era).
  { symmetry. apply (Z.div_unique _ _ _ yoe); lia. }
  assert (R : (yoe + era * 400) mod 400 = yoe).
  { symmetry. apply (Z.mod_unique _ _ era); lia. }
  rewrite Q, R.
  assert (D : doe_of_ymd yoe m d = (z + 719468) mod 146097) by lia.
  rewrite D.
  pose proof (Z.div_mod (z + 719468) 146097 ltac:(lia)) as DM.
  fold era in DM.
  repeat split; try lia.
  - destruct (m <=? 2); lia.
  - destruct (m <=? 2); lia.
Qed.

(** *** Digits *)

Lemma digit_val_digit (n : Z) : 0 <= n < 10 -> digit_val (digit n) = Some n.
Proof.
  intros H. rewrite <- (Z2Nat.id n) by lia.
  assert (B : (Z.to_nat n < 10)%nat) by lia. revert B.
  generalize (Z.to_nat n) as k. intros k B.
  do 10 (destruct k as [|k]; [reflexivity|]). lia.
Qed.

Lemma sep_digit (c : ascii) (n : Z) (X : string) :
  digit_val c = None -> 0 <= n < 10 -> sep c (String (digit n) X) = None.
Proof.
  intros Hc H. cbn [sep]. destruct (Ascii.eqb c (digit n)) eqn:E; [|reflexivity].
  apply Ascii.eqb_eq in E. subst c. rewrite digit_val_digit in Hc by exact H.
  discriminate.
Qed.

Lemma read_fixed_pad (w j : nat) (n acc : Z) (tail : string) :
  0 <= n < 10 ^ Z.of_nat w ->
  read_fixed (w + j) (pad w n tail) acc
  = read_fixed j tail (acc * 10 ^ Z.of_nat w + n).
Proof.
  revert j n tail. induction w as [|w IH]; intros j n tail H.
  - cbn [pad Nat.add]. f_equal. simpl in H. lia.
  - cbn [pad]. replace (S w + j)%nat with (w + S j)%nat by lia.
    rewrite Nat2Z.inj_succ, Z.pow_succ_r in H by lia.
    rewrite IH by (split; [apply Z.div_pos; lia | apply Z.div_lt_upper_bound; lia]).
    cbn [read_fixed].
    rewrite digit_val_digit by (apply Z.mod_pos_bound; lia).
    f_equal. rewrite Nat2Z.inj_succ, Z.pow_succ_r by lia.
    pose proof (Z.div_mod n 10 ltac:(lia)). lia.
Qed.

Lemma read_pad (w : nat) (n : Z) (tail : string) :
  0 <= n < 10 ^ Z.of_nat w ->
  read_fixed w (pad w n tail) 0 = Some (n, tail).
Proof.
  intros H. pose proof (read_fixed_pad w 0 n 0 tail H) as E.
  rewrite Nat.add_0_r in E. rewrite E. reflexivity.
Qed.

Lemma sep_pad (c : ascii) (w : nat) (n : Z) (X : string) :
  digit_val c = None -> sep c (pad (S w) n X) = None.
Proof.
  intros Hc. revert n X. induction w as [|w IH]; intros n X.
  - cbn [pad]. apply sep_digit; [exact Hc|]. apply Z.mod_pos_bound. lia.
  - change (pad (S (S w)) n X)
      with (pad (S w) (n / 10) (String (digit (n mod 10)) X)).
    apply IH.
Qed.

Lemma parse_print_year (y : Z) (X : string) :
  -999999 <= y <= 999999 ->
  parse_year (print_year y X) = Some (y, X).
Proof.
  intros H. unfold parse_year, print_year.
  destruct ((0 <=? y) && (y <=? 9999)) eqn:E.
  - rewrite !sep_pad by reflexivity. apply read_pad.
    change (10 ^ Z.of_nat 4) with 10000. lia.
  - destruct (y <? 0) eqn:N.
    + cbn [sep]. simpl Ascii.eqb. cbv iota.
      rewrite read_pad by (change (10 ^ Z.of_nat 6) with 1000000; lia).
      destruct (Z.abs y =? 0) eqn:Z0; [lia|]. f_equal. f_equal. lia.
    + cbn [sep]. simpl Ascii.eqb. cbv iota.
      rewrite read_pad by (change (10 ^ Z.of_nat 6) with 1000000; lia).
      f_equal. f_equal. lia.
Qed.

(** *** The whole string *)

Theorem parse_toISOString (t : Z) :
  valid_time t -> parse (toISOString t) = Some t.
Proof.
  intros V. unfold valid_time in V. unfold parse, toISOString.
  pose proof (days_from_civil_from_days (t / msPerDay)) as C.
  destruct (civil_from_days (t / msPerDay)) as [[y m] d].
  destruct C as (D & Hm & Hd & Hy).
  pose proof (Z.mod_pos_bound t msPerDay ltac:(unfold msPerDay; lia)) as Hms.
  pose proof (Z.div_mod t msPerDay ltac:(unfold msPerDay; lia)) as DM.
  set (ms := t mod msPerDay) in *. set (z := t / msPerDay) in *.
  assert (Hz : -100000000 <= z <= 100000000).
  { unfold z, msPerDay. split.
    - apply Z.div_le_lower_bound; lia.
    - apply Z.div_le_upper_bound; lia. }
  assert (He : -680 <= (z + 719468) / 146097 < 690).
  { split.
    - apply Z.div_le_lower_bound; lia.
    - apply Z.div_lt_upper_bound; lia. }
  unfold msPerDay in Hms, DM.
  assert (Hh : 0 <= ms / 3600000 < 24).
  { split; [apply Z.div_pos; lia|apply Z.div_lt_upper_bound; lia]. }
  assert (Hmm : 0 <= ms / 60000 mod 60 < 60) by (apply Z.mod_pos_bound; lia).
  assert (Hss : 0 <= ms / 1000 mod 60 < 60) by (apply Z.mod_pos_bound; lia).
  assert (Hmil : 0 <= ms mod 1000 < 1000) by (apply Z.mod_pos_bound; lia).
  rewrite parse_print_year by lia.
  cbn [sep]. simpl Ascii.eqb. cbv iota.
  rewrite read_pad by (change (10 ^ Z.of_nat 2) with 100; lia).
  cbn [sep]. simpl Ascii.eqb. cbv iota.
  rewrite read_pad by (change (10 ^ Z.of_nat 2) with 100; lia).
  cbn [sep]. simpl Ascii.eqb. cbv iota.
  rewrite read_pad by (change (10 ^ Z.of_nat 2) with 100; lia).
  cbn [sep]. simpl Ascii.eqb. cbv iota.
  rewrite read_pad by (change (10 ^ Z.of_nat 2) with 100; lia).
  cbn [sep]. simpl Ascii.eqb. cbv iota.
  rewrite read_pad by (change (10 ^ Z.of_nat 2) with 100; lia).
  cbn [sep]. simpl Ascii.eqb. cbv iota.
  rewrite read_pad by (change (10 ^ Z.of_nat 3) with 1000; lia).
  cbn [sep]. simpl Ascii.eqb. cbv iota.
  rewrite D.
  assert (T : z * msPerDay + ms / 3600000 * 3600000 + ms / 60000 mod 60 * 60000
              + ms / 1000 mod 60 * 1000 + ms mod 1000 = t).
  { unfold msPerDay.
    pose proof (Z.div_mod ms 1000 ltac:(lia)).
    pose proof (Z.div_mod (ms / 1000) 60 ltac:(lia)).
    pose proof (Z.div_mod (ms / 60000) 60 ltac:(lia)).
    assert (ms / 1000 / 60 = ms / 60000)
      by (rewrite Z.div_div by lia; reflexivity).
    assert (ms / 60000 / 60 = ms / 3600000)
      by (rewrite Z.div_div by lia; reflexivity).
    lia. }
  rewrite T.
  replace (valid_timeb t) with true
    by (symmetry; unfold valid_timeb; lia).
  replace ((1 <=? m) && (m <=? 12) && (1 <=? d) && (d <=? 31)
           && (ms / 60000 mod 60 <=? 59) && (ms / 1000 mod 60 <=? 59)
           && ((ms / 3600000 <=? 23)
               || (ms / 3600000 =? 24) && (ms / 60000 mod 60 =? 0)
                  && (ms / 1000 mod 60 =? 0) && (ms mod 1000 =? 0)))
    with true; [reflexivity|].
  symmetry. rewrite !andb_true_iff, orb_true_iff. lia.
Qed.

End DateRoundTrip.

(** ** The transcript and its placeholder *)

Section Placeholder.

Import App.

Lemma count_loading_app (l1 l2 : list Message) :
  count_loading (l1 ++ l2) = (count_loading l1 + count_loading l2)%nat.
Proof.
  unfold count_loading. rewrite List.filter_app, length_app. reflexivity.
Qed.

Lemma count_loading_filter (l : list Message) :
  count_loading (List.filter not_loading l) = 0%nat.
Proof.
  unfold count_loading, not_loading.
  induction l as [|m l IH]; simpl; [reflexivity|].
  destruct (Sender_eqb (sender m) loading) eqn:E; simpl; [exact IH|].
  rewrite E. exact IH.
Qed.

Lemma count_loading_replace (txt : json) (now : Z) (prev : list Message) :
  count_loading (replacePlaceholder txt now prev) = 0%nat.
Proof.
  unfold replacePlaceholder.
  rewrite count_loading_app, count_loading_filter. reflexivity.
Qed.

(** Whatever settles the request, the transcript that results is the
    old one without placeholders, followed by one [bot] message. *)
Lemma onSettled_messages (s s' : State) (r : Fetch) (now : Z) :
  onSettled s r now = Some s' ->
  exists txt,
    messages s' = replacePlaceholder txt now (messages s)
    /\ loading_flag s' = false /\ inflight s' = None
    /\ input s' = input s.
Proof.
  unfold onSettled, onCatch. intros H.
  destruct r as [| |data].
  - inversion H; subst; clear H. exists error_text. simpl. auto.
  - inversion H; subst; clear H. exists error_text. simpl. auto.
  - destruct (botReply data) as [|txt|v].
    + inversion H; subst; clear H. exists error_text. simpl. auto.
    + inversion H; subst; clear H. exists txt. simpl. auto.
    + inversion H; subst; clear H. exists v. simpl. auto.
Qed.

Lemma in_step_initial (t0 : Z) : in_step (initial t0).
Proof. unfold in_step. simpl. auto. Qed.

Lemma in_step_preserved (s s' : State) (e : Event) :
  in_step s -> step s e = Some s' -> in_step s'.
Proof.
  unfold in_step, step. intros I H. destruct e as [draft|t1 t2|r now].
  - destruct (loading_flag s) eqn:L; [discriminate|].
    inversion H; subst; clear H. simpl. rewrite L. exact I.
  - destruct (loading_flag s) eqn:L; [discriminate|].
    destruct (valid_timeb t1 && valid_timeb t2); [|discriminate].
    unfold handleSendMessage in H.
    destruct (String.eqb (Js.trim (input s)) "").
    + inversion H; subst; clear H. rewrite L. exact I.
    + inversion H; subst; clear H. simpl.
      rewrite !count_loading_app. destruct I as [I _]. rewrite I.
      split; [reflexivity|discriminate].
  - destruct (inflight s); [|discriminate].
    destruct (valid_timeb now); [|discriminate].
    apply onSettled_messages in H.
    destruct H as (txt & Hm & Hl & Hi & _).
    rewrite Hl, Hm, count_loading_replace. auto.
Qed.

Lemma reachable_in_step (s : State) : reachable s -> in_step s.
Proof.
  induction 1 as [t0 _|s e s' _ IH H].
  - apply in_step_initial.
  - exact (in_step_preserved s s' e IH H).
Qed.

Lemma run_reachable (s s' : State) (es : list Event) :
  reachable s -> run s es = Some s' -> reachable s'.
Proof.
  revert s. induction es as [|e es IH]; simpl; intros s R H.
  - inversion H; subst. exact R.
  - destruct (step s e) as [s1|] eqn:E; [|discriminate].
    apply (IH s1); [|exact H]. exact (reachable_step s e s1 R E).
Qed.

End Placeholder.

(** ** The handler *)

Section Handler.

Import App.

Lemma valid_timeb_iff (t : Z) : valid_timeb t = true <-> valid_time t.
Proof. unfold valid_timeb, valid_time. lia. Qed.

Example awaiting_run :
  run (initial Scenario.t0)
      [Typed "hello"; Send (Scenario.t0 + 5000) (Scenario.t0 + 5001)]
  = Some Scenario.awaiting.
Proof. reflexivity. Qed.

Lemma awaiting_reachable : reachable Scenario.awaiting.
Proof.
  apply (run_reachable (initial Scenario.t0) _ _) with (2 := awaiting_run).
  apply reachable_initial. unfold valid_time, Scenario.t0. lia.
Qed.

(** C1, as stated, fails for the body [null], a parseable JSON payload
    that has no reply field: reading [data.response] throws, the [catch]
    block runs, and the bot message carries the error text, not the
    fallback. *)
Lemma null_body_counterexample :
  ~ (exists s' b,
        onSettled Scenario.awaiting (Body JNull) (Scenario.t0 + 9000) = Some s'
        /\ messages s'
           = List.filter not_loading (messages Scenario.awaiting) ++ [b]
        /\ sender b = bot
        /\ text b = fallback_text).
Proof.
  intros (s' & b & H & Hm & _ & Ht).
  inversion H; subst s'; clear H. simpl in Hm.
  inversion Hm; subst b. discriminate Ht.
Qed.

(** C1, amended. When the request resolves with a parsed body other
    than [null], the continuation yields the old transcript without its
    loading messages followed by exactly one bot message; its text is
    the [response] member when that is truthy, whatever value it is,
    and the fixed fallback when the member is absent or falsy (the
    empty string, [null], 0, [false]); it is never the empty string. *)
Theorem resolved_reply_replaces_placeholder
        (s : State) (data : json) (o : option json) (now : Z) :
  response_of data = Some o ->
  exists txt s',
    onSettled s (Body data) now = Some s'
    /\ messages s'
       = List.filter not_loading (messages s)
           ++ [ {| id := length_plus (messages s) 1; text := txt;
                   sender := bot; timestamp := now |} ]
    /\ count_loading (messages s') = 0%nat
    /\ txt <> ""
    /\ (forall v, o = Some v -> Json.truthy v = true -> txt = v)
    /\ (o = None \/ (exists v, o = Some v /\ Json.truthy v = false) ->
        txt = fallback_text).
Proof.
  intros Hd.
  assert (G : forall txt : json,
            txt <> "" ->
            (forall v, o = Some v -> Json.truthy v = true -> txt = v) ->
            (o = None \/ (exists v, o = Some v /\ Json.truthy v = false) ->
             txt = fallback_text) ->
            onSettled s (Body data) now
            = Some (setInflight None
                      (setLoading false
                         (setMessages (replacePlaceholder txt now) s))) ->
            exists txt s',
              onSettled s (Body data) now = Some s'
              /\ messages s'
                 = List.filter not_loading (messages s)
                     ++ [ {| id := length_plus (messages s) 1; text := txt;
                             sender := bot; timestamp := now |} ]
              /\ count_loading (messages s') = 0%nat
              /\ txt <> ""
              /\ (forall v, o = Some v -> Json.truthy v = true -> txt = v)
              /\ (o = None
                  \/ (exists v, o = Some v /\ Json.truthy v = false) ->
                  txt = fallback_text)).
  { intros txt N A B E. exists txt. eexists. split; [exact E|].
    cbn [messages setInflight setLoading setMessages].
    split; [reflexivity|]. split; [apply count_loading_replace|]. auto. }
  unfold onSettled, botReply in G |- *. rewrite Hd in G |- *.
  destruct o as [v|].
  - destruct (Json.truthy v) eqn:T.
    + assert (N : v <> "").
      { intros ->. discriminate T. }
      assert (A : forall w, Some v = Some w -> Json.truthy w = true -> v = w).
      { intros w H _. inversion H. reflexivity. }
      assert (B : Some v = None
                  \/ (exists w, Some v = Some w /\ Json.truthy w = false) ->
                  v = fallback_text).
      { intros [H|(w & H & F)]; [discriminate|].
        inversion H; subst. rewrite T in F. discriminate. }
      apply (G v N A B). destruct v; reflexivity.
    + apply (G fallback_text); [discriminate| |reflexivity|reflexivity].
      intros w H F. inversion H; subst. rewrite T in F. discriminate.
  - apply (G fallback_text); [discriminate| |reflexivity|reflexivity].
    discriminate.
Qed.

Lemma resolved_reply_witness :
  exists txt s',
    onSettled Scenario.awaiting (Body Scenario.hi_there) (Scenario.t0 + 9000)
    = Some s'
    /\ messages s'
       = List.filter not_loading (messages Scenario.awaiting)
           ++ [ {| id := length_plus (messages Scenario.awaiting) 1;
                   text := txt; sender := bot;
                   timestamp := Scenario.t0 + 9000 |} ]
    /\ count_loading (messages s') = 0%nat
    /\ txt <> ""
    /\ (forall v, Some (JStr "hi there") = Some v ->
                  Json.truthy v = true -> txt = v)
    /\ (Some (JStr "hi there") = None
        \/ (exists v, Some (JStr "hi there") = Some v /\ Json.truthy v = false) ->
        txt = fallback_text).
Proof.
  apply (resolved_reply_replaces_placeholder
           Scenario.awaiting Scenario.hi_there (Some (JStr "hi there"))).
  reflexivity.
Defined.

(** C2, as stated, fails: after a rejected request the bot message
    does not read "unable to reach the chatbot service". *)
Lemma rejected_text_counterexample :
  ~ (exists s' b,
        onSettled Scenario.awaiting NetworkError (Scenario.t0 + 9000) = Some s'
        /\ messages s'
           = List.filter not_loading (messages Scenario.awaiting) ++ [b]
        /\ sender b = bot
        /\ text b = "unable to reach the chatbot service").
Proof.
  intros (s' & b & H & Hm & _ & Ht).
  inversion H; subst s'; clear H. simpl in Hm.
  inversion Hm; subst b. discriminate Ht.
Qed.

(** C2, amended. When the [try] block throws ([fetch] rejects, the
    body is not JSON, or reading the reply throws), the continuation
    completes: it yields the old transcript without its loading
    messages followed by exactly one bot message whose text is
    "Error: Unable to reach the chatbot service.". *)
Theorem rejected_request_reports_error (s : State) (r : Fetch) (now : Z) :
  try_throws r = true ->
  exists s',
    onSettled s r now = Some s'
    /\ messages s'
       = List.filter not_loading (messages s)
           ++ [ {| id := length_plus (messages s) 1;
                   text := "Error: Unable to reach the chatbot service.";
                   sender := bot; timestamp := now |} ]
    /\ count_loading (messages s') = 0%nat.
Proof.
  intros H. exists (onCatch s now).
  split; [|split; [reflexivity|apply count_loading_replace]].
  destruct r as [| |data]; try reflexivity.
  simpl in *. destruct (botReply data); (reflexivity || discriminate).
Qed.

Lemma rejected_request_witness :
  exists s',
    onSettled Scenario.awaiting (Body JNull) (Scenario.t0 + 9000) = Some s'
    /\ messages s'
       = List.filter not_loading (messages Scenario.awaiting)
           ++ [ {| id := length_plus (messages Scenario.awaiting) 1;
                   text := "Error: Unable to reach the chatbot service.";
                   sender := bot; timestamp := Scenario.t0 + 9000 |} ]
    /\ count_loading (messages s') = 0%nat.
Proof.
  apply (rejected_request_reports_error Scenario.awaiting (Body JNull)).
  reflexivity.
Defined.

(** C3. In every state reached from the default greeting by typing,
    sending and settling, the transcript holds at most one loading
    message, also between the two updates of the handler; and when the
    request settles, the new transcript is the old one with the loading
    messages filtered out, then the bot message: no loading message is
    left beside it. *)
Theorem at_most_one_placeholder (s : State) :
  reachable s ->
  (count_loading (messages s) <= 1)%nat
  /\ (forall now, count_loading (messages (afterUserMessage s now)) <= 1)%nat
  /\ forall r now s',
       step s (Settled r now) = Some s' ->
       exists b,
         messages s' = List.filter not_loading (messages s) ++ [b]
         /\ sender b = bot
         /\ count_loading (messages s') = 0%nat.
Proof.
  intros R.
  assert (C : (count_loading (messages s) <= 1)%nat).
  { apply reachable_in_step in R. unfold in_step in R.
    destruct (loading_flag s); destruct R as [-> _]; lia. }
  split; [exact C|]. split.
  - intros now. unfold afterUserMessage, setMessages. cbn [messages].
    rewrite count_loading_app. unfold count_loading at 2. cbn. lia.
  - intros r now s' H. unfold step in H.
    destruct (inflight s); [|discriminate].
    destruct (valid_timeb now); [|discriminate].
    apply onSettled_messages in H. destruct H as (txt & Hm & _).
    eexists. split; [exact Hm|]. split; [reflexivity|].
    rewrite Hm. apply count_loading_replace.
Qed.

Lemma at_most_one_placeholder_witness :
  (count_loading (messages Scenario.awaiting) <= 1)%nat
  /\ (forall now,
        count_loading (messages (afterUserMessage Scenario.awaiting now)) <= 1)%nat
  /\ forall r now s',
       step Scenario.awaiting (Settled r now) = Some s' ->
       exists b,
         messages s'
         = List.filter not_loading (messages Scenario.awaiting) ++ [b]
         /\ sender b = bot
         /\ count_loading (messages s') = 0%nat.
Proof.
  apply (at_most_one_placeholder Scenario.awaiting).
  apply (run_reachable (initial Scenario.t0) _
           [Typed "hello"; Send (Scenario.t0 + 5000) (Scenario.t0 + 5001)]).
  - apply reachable_initial. unfold valid_time, Scenario.t0. lia.
  - reflexivity.
Defined.

(** C4 fails on the code. After one settled exchange the transcript
    has three messages and the bot message has id 4, its id being the
    length before the placeholder was filtered out, plus one; the next
    user message gets the length, three, plus one. *)
Theorem ids_collide_after_one_exchange :
  exists s',
    run (initial 0)
        [ Typed "a"; Send 1 1; Settled (Body Scenario.hi_there) 2;
          Typed "b"; Send 3 3 ] = Some s'
    /\ reachable s'
    /\ map id (messages s') = [1; 2; 4; 4; 5]
    /\ ~ NoDup (map id (messages s')).
Proof.
  eexists. split; [reflexivity|]. split.
  - apply (run_reachable (initial 0) _
             [ Typed "a"; Send 1 1; Settled (Body Scenario.hi_there) 2;
               Typed "b"; Send 3 3 ]).
    + apply reachable_initial. unfold valid_time. lia.
    + reflexivity.
  - match goal with |- ?l = _ /\ _ =>
      assert (E : l = [1; 2; 4; 4; 5]) by reflexivity
    end.
    split; [exact E|]. rewrite E. intros H.
    apply NoDup_cons in H as [_ H]. apply NoDup_cons in H as [_ H].
    apply NoDup_cons in H as [H _]. apply H. left.
Qed.

(** C5, as stated, fails: the stored text keeps the white space that
    [trim] removes. *)
Lemma stored_text_counterexample :
  let s := setInput "  hi " (initial 0) in
  Js.trim (input s) <> ""
  /\ messages (afterUserMessage s 1)
     = messages s ++ [ {| id := 2; text := "  hi "; sender := user;
                          timestamp := 1 |} ]
  /\ "  hi " <> Js.trim (input s).
Proof. simpl. repeat split; discriminate. Qed.

(** C5, amended. For every input whose trimmed form is not empty, the
    first state update appends a user message whose text is the input
    as it was typed, not trimmed, with id [length + 1] and the current
    time; the same text goes out as the question. *)
Theorem submit_appends_input_as_typed (s : State) (t_user t_loading : Z) :
  Js.trim (input s) <> "" ->
  messages (afterUserMessage s t_user)
  = messages s ++ [ {| id := Z.of_nat (length (messages s)) + 1;
                       text := input s; sender := user;
                       timestamp := t_user |} ]
  /\ exists s',
       handleSendMessage s t_user t_loading
       = (s', Some {| question := input s |})
       /\ messages s'
          = messages (afterUserMessage s t_user)
              ++ [ {| id := Z.of_nat (length (messages s)) + 2;
                      text := typing_text; sender := loading;
                      timestamp := t_loading |} ]
       /\ input s' = "" /\ loading_flag s' = true.
Proof.
  intros H. split; [reflexivity|].
  unfold handleSendMessage.
  destruct (String.eqb (Js.trim (input s)) "") eqn:E.
  - apply String.eqb_eq in E. contradiction.
  - eexists. split; [reflexivity|]. simpl. auto.
Qed.

Lemma submit_appends_witness :
  messages (afterUserMessage (setInput "  hi " (initial 0)) 1)
  = messages (setInput "  hi " (initial 0))
      ++ [ {| id := Z.of_nat (length (messages (setInput "  hi " (initial 0)))) + 1;
              text := input (setInput "  hi " (initial 0)); sender := user;
              timestamp := 1 |} ]
  /\ exists s',
       handleSendMessage (setInput "  hi " (initial 0)) 1 2
       = (s', Some {| question := input (setInput "  hi " (initial 0)) |})
       /\ messages s'
          = messages (afterUserMessage (setInput "  hi " (initial 0)) 1)
              ++ [ {| id := Z.of_nat (length (messages (setInput "  hi " (initial 0)))) + 2;
                      text := typing_text; sender := loading;
                      timestamp := 2 |} ]
       /\ input s' = "" /\ loading_flag s' = true.
Proof.
  apply (submit_appends_input_as_typed (setInput "  hi " (initial 0)) 1 2).
  simpl. discriminate.
Defined.

(** C6. For every input that [trim] empties, the handler returns at
    once: the state, with its transcript and its draft, is the one it
    started from, and no request goes out; the same holds for the
    step of the component. *)
Theorem blank_submit_is_noop (s : State) (t_user t_loading : Z) :
  Js.trim (input s) = "" ->
  handleSendMessage s t_user t_loading = (s, None)
  /\ forall s', step s (Send t_user t_loading) = Some s' -> s' = s.
Proof.
  intros H. assert (E : handleSendMessage s t_user t_loading = (s, None)).
  { unfold handleSendMessage. rewrite H. reflexivity. }
  split; [exact E|]. intros s' Hs. unfold step in Hs. rewrite E in Hs.
  destruct (loading_flag s); [discriminate|].
  destruct (valid_timeb t_user && valid_timeb t_loading); [|discriminate].
  inversion Hs. reflexivity.
Qed.

Lemma blank_submit_witness :
  handleSendMessage (setInput "   " (initial 0)) 1 2
  = (setInput "   " (initial 0), None)
  /\ forall s', step (setInput "   " (initial 0)) (Send 1 2) = Some s' ->
                s' = setInput "   " (initial 0).
Proof.
  apply (blank_submit_is_noop (setInput "   " (initial 0)) 1 2).
  reflexivity.
Defined.

(** C7. Whatever the state in which a request is out and whatever the
    request ends in (rejection, a body that is not JSON, any parsed
    body), the continuation runs to its end as a step of the
    component, and it ends with the flag cleared and no request
    left. *)
Theorem flag_cleared_on_every_outcome (s : State) (r : Fetch) (now : Z) :
  inflight s <> None -> valid_time now ->
  exists s',
    step s (Settled r now) = Some s'
    /\ loading_flag s' = false /\ inflight s' = None.
Proof.
  intros Hi V. unfold step.
  destruct (inflight s) as [req|]; [|contradiction].
  apply valid_timeb_iff in V. rewrite V.
  destruct (onSettled s r now) as [s'|] eqn:E.
  - exists s'. split; [reflexivity|].
    apply onSettled_messages in E. destruct E as (_ & _ & Hl & Hf & _). auto.
  - exfalso. unfold onSettled in E. destruct r as [| |data]; try discriminate.
    destruct (botReply data); discriminate.
Qed.

Lemma flag_cleared_witness :
  exists s',
    step Scenario.awaiting
         (Settled (Body (JObj [("response", JNum 5)])) (Scenario.t0 + 9000))
    = Some s'
    /\ loading_flag s' = false /\ inflight s' = None.
Proof.
  apply (flag_cleared_on_every_outcome
           Scenario.awaiting (Body (JObj [("response", JNum 5)]))).
  - discriminate.
  - unfold valid_time, Scenario.t0. lia.
Defined.

End Handler.

(** ** Storage *)

Section Stored.

Import LocalStorage Persistence.

Lemma sender_of_tag_tag (s : Sender) : sender_of_tag (sender_tag s) = Some s.
Proof. destruct s; reflexivity. Qed.

Lemma revive_toJSON (m : Message) :
  valid_time (timestamp m) -> revive (message_toJSON m) = Some m.
Proof.
  intros V. destruct m as [i txt sd t]. unfold message_toJSON, revive.
  cbn [id text sender timestamp] in *. cbn [Json.member]. simpl String.eqb.
  cbv iota. rewrite sender_of_tag_tag, (parse_toISOString t V). reflexivity.
Qed.

Lemma revive_all_toJSON (msgs : list Message) :
  Forall (fun m => valid_time (timestamp m)) msgs ->
  revive_all (map message_toJSON msgs) = Some msgs.
Proof.
  induction 1 as [|m msgs V _ IH]; [reflexivity|].
  cbn [map revive_all]. rewrite (revive_toJSON m V), IH. reflexivity.
Qed.

Lemma getItem_setItem (k v : string) (st st' : Storage) :
  setItem k v st = Some st' -> getItem k st' = Some v.
Proof.
  unfold setItem, getItem. intros H.
  destruct (_ <=? _)%N; [|discriminate]. inversion H; subst; clear H.
  cbn [items]. apply lookup_insert_eq.
Qed.

(** What [restore] finds once [persist] has written. *)
Lemma restore_written (msgs : list Message) (st st' : Storage) :
  Forall (fun m => valid_time (timestamp m)) msgs ->
  setItem key (serialize msgs) st = Some st' ->
  restore st' = match msgs with [] => Keep | _ => Replace msgs end.
Proof.
  intros V W. unfold restore. rewrite (getItem_setItem _ _ _ _ W).
  unfold serialize.
  destruct (String.eqb _ "") eqn:E.
  - apply String.eqb_eq in E. exfalso. exact (stringify_not_empty _ E).
  - rewrite parse_stringify, (revive_all_toJSON msgs V). reflexivity.
Qed.

(** C8. For every transcript that is not empty, whose dates are valid
    time values, once [persist] has written it ([setItem] did not
    throw), [restore] calls [setMessages] with an equal list of
    messages: ids, texts and senders are the same, and so are the time
    values, to the millisecond and hence to the displayed minute. *)
Theorem restore_persist_round_trip (msgs : list Message) (st : Storage) :
  msgs <> [] ->
  Forall (fun m => valid_time (timestamp m)) msgs ->
  setItem key (serialize msgs) st <> None ->
  restore (persist msgs st) = Replace msgs.
Proof.
  intros Hne V W. unfold persist.
  destruct (setItem key (serialize msgs) st) as [st'|] eqn:E; [|contradiction].
  rewrite (restore_written msgs st st' V E).
  destruct msgs; [contradiction|reflexivity].
Qed.

Lemma restore_persist_witness :
  restore (persist (messages Scenario.awaiting) Scenario.empty_storage)
  = Replace (messages Scenario.awaiting).
Proof.
  apply (restore_persist_round_trip (messages Scenario.awaiting)
           Scenario.empty_storage).
  - discriminate.
  - repeat constructor; vm_compute; discriminate.
  - vm_compute. discriminate.
Defined.

End Stored.

(** ** The conversation id *)

Section ConversationId.

Import LocalStorage Session.

(** A token that is not empty stays: the next call returns it and
    leaves the storage as it is. *)
Lemma cid_kept_when_not_empty (draw draw' cid : string) (st st' : Storage) :
  getOrCreateCid draw st = Returned cid st' ->
  cid <> "" ->
  getOrCreateCid draw' st' = Returned cid st'.
Proof.
  unfold getOrCreateCid. intros H Hne.
  assert (G : getItem key st' = Some cid).
  { destruct (getItem key st) as [c|] eqn:E.
    - destruct (String.eqb c "") eqn:Ec.
      + destruct (setItem key (Js.slice 2 draw) st) eqn:W; [|discriminate].
        inversion H; subst. exact (getItem_setItem _ _ _ _ W).
      + inversion H; subst. exact E.
    - destruct (setItem key (Js.slice 2 draw) st) eqn:W; [|discriminate].
      inversion H; subst. exact (getItem_setItem _ _ _ _ W). }
  rewrite G. apply String.eqb_neq in Hne. rewrite Hne. reflexivity.
Qed.

(** C9 fails on the code. [Math.random ()] may return 0, which prints
    as "0"; the token is then the empty string, which the next call
    takes for a missing one and replaces. *)
Theorem cid_changes_after_zero_draw :
  exists st1 st2,
    Session.is_draw "0" = true /\ Session.is_draw "0.i" = true
    /\ getOrCreateCid "0" Scenario.empty_storage = Returned "" st1
    /\ getOrCreateCid "0.i" st1 = Returned "i" st2
    /\ getItem key st1 = Some "" /\ getItem key st2 = Some "i".
Proof. eexists _, _. repeat split; vm_compute; reflexivity. Qed.

(** Unlike the two effects, the helper does not catch what [setItem]
    throws: with no room left and no token cached it returns nothing. *)
Example cid_throws_when_storage_is_full :
  getOrCreateCid "0.i" {| items := ∅; quota := 0 |} = Threw.
Proof. vm_compute. reflexivity. Qed.

End ConversationId.

(** ** Reloading the page *)

Section Reload.

Import LocalStorage Persistence.

Lemma step_valid_times (s s' : State) (e : App.Event) :
  Forall (fun m => valid_time (timestamp m)) (messages s) ->
  App.step s e = Some s' ->
  Forall (fun m => valid_time (timestamp m)) (messages s').
Proof.
  intros V H. unfold App.step in H. destruct e as [draft|t1 t2|r now].
  - destruct (loading_flag s); [discriminate|]. inversion H; subst. exact V.
  - destruct (loading_flag s); [discriminate|].
    destruct (valid_timeb t1 && valid_timeb t2) eqn:T; [|discriminate].
    apply andb_true_iff in T. destruct T as [T1 T2].
    apply valid_timeb_iff in T1. apply valid_timeb_iff in T2.
    unfold App.handleSendMessage in H.
    destruct (String.eqb (Js.trim (input s)) "").
    + inversion H; subst. exact V.
    + inversion H; subst; clear H. cbn.
      rewrite !Forall_app. split; [split; [exact V|]|];
        (constructor; [assumption|constructor]).
  - destruct (inflight s); [|discriminate].
    destruct (valid_timeb now) eqn:T; [|discriminate].
    apply valid_timeb_iff in T.
    apply onSettled_messages in H. destruct H as (txt & Hm & _).
    rewrite Hm. unfold App.replacePlaceholder. rewrite Forall_app. split.
    + rewrite Forall_forall in V |- *. intros m Hin.
      apply V. apply list_elem_of_In. apply list_elem_of_In in Hin.
      apply List.filter_In in Hin. apply Hin.
    + constructor; [exact T|constructor].
Qed.

(** C10. The persist effect runs on the transcript that holds the
    placeholder: once a submission that is not blank has been handled
    and the write has succeeded, the stored text reads back as the
    transcript with its loading message, and loading the page again
    restores that transcript into a component whose in-flight flag is
    false and that waits for no request. *)
Theorem placeholder_survives_reload (w w1 : World) (t_user t_loading t0 : Z) :
  Forall (fun m => valid_time (timestamp m)) (messages (ui w)) ->
  Js.trim (input (ui w)) <> "" ->
  Page.step w (Page.Ui (App.Send t_user t_loading)) = Some w1 ->
  setItem key (serialize (messages (ui w1))) (store w) <> None ->
  valid_time t0 ->
  store w1 = persist (messages (ui w1)) (store w)
  /\ restore (store w1) = Replace (messages (ui w1))
  /\ exists w2,
       Page.step w1 (Page.Reload t0) = Some w2
       /\ messages (ui w2) = messages (ui w1)
       /\ (1 <= App.count_loading (messages (ui w2)))%nat
       /\ loading_flag (ui w2) = false
       /\ inflight (ui w2) = None.
Proof.
  intros V B H W T0. cbn [Page.step] in H.
  destruct (App.step (ui w) (App.Send t_user t_loading)) as [s'|] eqn:E;
    [|discriminate].
  destruct (ReactChild.draws (messages s')) eqn:D; [|discriminate].
  apply String.eqb_neq in B. rewrite B in H.
  inversion H; subst w1; clear H. cbn [ui store] in *.
  pose proof (step_valid_times _ _ _ V E) as V'.
  assert (Hm : messages s'
               = messages (ui w)
                   ++ [App.newUserMessage (ui w) t_user;
                       App.loadingMessage (ui w) t_loading]).
  { unfold App.step in E. destruct (loading_flag (ui w)); [discriminate|].
    destruct (valid_timeb t_user && valid_timeb t_loading); [|discriminate].
    unfold App.handleSendMessage in E. rewrite B in E.
    inversion E; subst; clear E. cbn. rewrite <- app_assoc. reflexivity. }
  assert (Hne : messages s' <> []).
  { rewrite Hm. destruct (messages (ui w)); discriminate. }
  assert (R : restore (persist (messages s') (store w)) = Replace (messages s')).
  { unfold persist.
    destruct (setItem key (serialize (messages s')) (store w)) as [st'|] eqn:S;
      [|contradiction].
    rewrite (restore_written _ _ _ V' S).
    destruct (messages s'); [contradiction|reflexivity]. }
  split; [reflexivity|]. split; [exact R|].
  cbn [Page.step]. apply valid_timeb_iff in T0. rewrite T0.
  unfold Page.mount. cbn [ui store]. rewrite R, D.
  eexists. split; [reflexivity|].
  cbn [ui App.setMessages messages loading_flag inflight App.initial].
  split; [reflexivity|]. split; [|split; reflexivity].
  rewrite Hm, count_loading_app. unfold App.count_loading. cbn. lia.
Qed.

Lemma placeholder_survives_witness :
  exists w0 w w1,
    Page.mount Scenario.t0 Scenario.empty_storage = Some w0
    /\ Page.step w0 (Page.Ui (App.Typed "hello")) = Some w
    /\ Page.step w (Page.Ui (App.Send (Scenario.t0 + 5000) (Scenario.t0 + 5001)))
       = Some w1
    /\ ui w1 = Scenario.awaiting
    /\ store w1 = persist (messages (ui w1)) (store w)
    /\ restore (store w1) = Replace (messages (ui w1))
    /\ exists w2,
         Page.step w1 (Page.Reload (Scenario.t0 + 60000)) = Some w2
         /\ messages (ui w2) = messages (ui w1)
         /\ (1 <= App.count_loading (messages (ui w2)))%nat
         /\ loading_flag (ui w2) = false
         /\ inflight (ui w2) = None.
Proof.
  eexists _, _, _. split; [reflexivity|]. split; [reflexivity|].
  split; [reflexivity|]. split; [reflexivity|].
  apply (placeholder_survives_reload _ _ (Scenario.t0 + 5000)
           (Scenario.t0 + 5001) (Scenario.t0 + 60000)).
  - repeat constructor; vm_compute; discriminate.
  - vm_compute. discriminate.
  - reflexivity.
  - vm_compute. discriminate.
  - vm_compute. split; discriminate.
Defined.

(** The bound of one loading message does not extend to reloads: a
    restored placeholder is joined by the one of the next submission. *)
Example two_placeholders_after_reload :
  exists w0 w,
    Page.mount Scenario.t0 Scenario.empty_storage = Some w0
    /\ Page.run w0
         [ Page.Ui (App.Typed "hello");
           Page.Ui (App.Send (Scenario.t0 + 5000) (Scenario.t0 + 5001));
           Page.Reload (Scenario.t0 + 60000);
           Page.Ui (App.Typed "again");
           Page.Ui (App.Send (Scenario.t0 + 65000) (Scenario.t0 + 65001)) ]
       = Some w
    /\ map sender (messages (ui w)) = [bot; user; loading; user; loading]
    /\ App.count_loading (messages (ui w)) = 2%nat.
Proof.
  eexists _, _. split; [vm_compute; reflexivity|].
  split; [vm_compute; reflexivity|]. split; vm_compute; reflexivity.
Qed.

End Reload.

(** ** The history built for the request *)

Section History.

Import App Memory.

Lemma filter_with_question (s : State) (t_user : Z) :
  List.filter not_loading (messages s ++ [newUserMessage s t_user])
  = List.filter not_loading (messages s) ++ [newUserMessage s t_user].
Proof. rewrite List.filter_app. reflexivity. Qed.

Lemma slice_last_length {A : Type} (n : nat) (l : list A) :
  (length (slice_last n l) <= n)%nat.
Proof. unfold slice_last. rewrite length_skipn. lia. Qed.

Lemma slice_last_snoc {A : Type} (n : nat) (l : list A) (x : A) :
  (0 < n)%nat -> exists k, slice_last n (l ++ [x]) = k ++ [x].
Proof.
  intros H. unfold slice_last. rewrite length_app. cbn [length].
  replace (length l + 1 - n)%nat with (length l - (n - 1))%nat by lia.
  rewrite skipn_app.
  replace (length l - (n - 1) - length l)%nat with 0%nat by lia.
  cbn [skipn]. eexists. reflexivity.
Qed.

(** X1. The history never has more than sixteen entries, and its last
    entry is always the question being sent: role "user", content the
    draft as typed. *)
Theorem memory_bounded_and_ends_with_question (s : State) (t_user : Z) :
  (length (memory s t_user) <= 16)%nat
  /\ last (memory s t_user) = Some {| role := "user"; content := input s |}.
Proof.
  unfold memory. split.
  - rewrite length_map. apply slice_last_length.
  - rewrite filter_with_question.
    destruct (slice_last_snoc 16 (List.filter not_loading (messages s))
                (newUserMessage s t_user) ltac:(lia)) as [k ->].
    rewrite map_app. cbn [map]. rewrite last_snoc. reflexivity.
Qed.

(** X2. The history is the end of the transcript without its loading
    messages, followed by the question, in the order of the transcript;
    nothing is cut while fewer than sixteen messages have settled. *)
Theorem memory_is_recent_history (s : State) (t_user : Z) :
  exists older,
    map turn (List.filter not_loading (messages s))
      ++ [turn (newUserMessage s t_user)]
    = older ++ memory s t_user
    /\ ((length (List.filter not_loading (messages s)) < 16)%nat ->
        older = []).
Proof.
  unfold memory. rewrite filter_with_question.
  set (l := List.filter not_loading (messages s) ++ [newUserMessage s t_user]).
  exists (map turn (firstn (length l - 16) l)). split.
  - rewrite <- map_app. unfold slice_last. rewrite firstn_skipn.
    unfold l. rewrite map_app. reflexivity.
  - intros H. unfold l. rewrite length_app. cbn [length].
    replace (length (List.filter not_loading (messages s)) + 1 - 16)%nat
      with 0%nat by lia.
    reflexivity.
Qed.

End History.

(** ** The keyboard *)

Section Keys.

Import App Keyboard.

Lemma plain_enter_sends (s : State) (t_user t_loading : Z) :
  Js.trim (input s) <> "" ->
  exists s',
    handleSendMessage s t_user t_loading
    = (s', Some {| question := input s |})
    /\ messages s'
       = messages s ++ [newUserMessage s t_user; loadingMessage s t_loading]
    /\ input s' = "" /\ loading_flag s' = true.
Proof.
  intros B. unfold handleSendMessage. apply String.eqb_neq in B. rewrite B.
  unfold setMessages, setLoading, setInput, afterUserMessage, setMessages.
  cbn [messages input loading_flag inflight]. rewrite <- app_assoc.
  eexists. split; [reflexivity|]. cbn [messages input loading_flag]. auto.
Qed.

(** X3. [handleKeyPress] calls [preventDefault] exactly for Enter
    without Shift. The state is left as it is and nothing is sent
    exactly for a key that is not Enter, for Enter with Shift and for
    Enter on a blank draft. Enter without Shift on a draft that is not
    blank submits: the question and the placeholder are appended, the
    draft is cleared, the flag is set, and the draft as typed goes out
    as the question. *)
Theorem only_plain_enter_submits
        (e : KeyboardEvent) (s : State) (t_user t_loading : Z) :
  (fst (handleKeyPress e s t_user t_loading) = true
   <-> key e = "Enter" /\ shiftKey e = false)
  /\ (snd (handleKeyPress e s t_user t_loading) = (s, None)
      <-> key e <> "Enter" \/ shiftKey e = true \/ Js.trim (input s) = "")
  /\ (key e = "Enter" /\ shiftKey e = false /\ Js.trim (input s) <> "" ->
      exists s',
        snd (handleKeyPress e s t_user t_loading)
        = (s', Some {| question := input s |})
        /\ messages s'
           = messages s
               ++ [newUserMessage s t_user; loadingMessage s t_loading]
        /\ input s' = "" /\ loading_flag s' = true).
Proof.
  unfold handleKeyPress.
  destruct (String.eqb (key e) "Enter") eqn:K; cbn [andb].
  - apply String.eqb_eq in K. destruct (shiftKey e) eqn:S; cbn [negb fst snd].
    + split; [split; [discriminate|intros [_ F]; discriminate]|].
      split; [split; auto|]. intros (_ & F & _). discriminate.
    + split; [tauto|].
      destruct (String.eqb (Js.trim (input s)) "") eqn:B.
      * apply String.eqb_eq in B. split.
        -- split; [auto|]. intros _. unfold handleSendMessage.
           rewrite B. reflexivity.
        -- intros (_ & _ & N). contradiction.
      * apply String.eqb_neq in B.
        destruct (plain_enter_sends s t_user t_loading B) as (s' & E & M).
        rewrite E. split.
        -- split; [discriminate|].
           intros [F|[F|F]]; [contradiction|discriminate|contradiction].
        -- intros _. exists s'. auto.
  - apply String.eqb_neq in K. cbn [fst snd].
    split; [split; [discriminate|intros [F _]; contradiction]|].
    split; [split; auto|]. intros (F & _). contradiction.
Qed.

Lemma only_plain_enter_witness :
  exists s',
    snd (handleKeyPress {| key := "Enter"; shiftKey := false |}
           (setInput "hi" (initial 0)) 1 2)
    = (s', Some {| question := input (setInput "hi" (initial 0)) |})
    /\ messages s'
       = messages (setInput "hi" (initial 0))
           ++ [newUserMessage (setInput "hi" (initial 0)) 1;
               loadingMessage (setInput "hi" (initial 0)) 2]
    /\ input s' = "" /\ loading_flag s' = true.
Proof.
  apply (only_plain_enter_submits {| key := "Enter"; shiftKey := false |}
           (setInput "hi" (initial 0)) 1 2).
  split; [reflexivity|]. split; [reflexivity|]. vm_compute. discriminate.
Defined.

End Keys.

(** ** What a session keeps *)

Section Sessions.

Import App Session_shape.

Lemma length_filter_count (l : list Message) :
  (length (List.filter not_loading l) + count_loading l = length l)%nat.
Proof.
  unfold count_loading, not_loading.
  induction l as [|m l IH]; [reflexivity|]. cbn [List.filter].
  destruct (Sender_eqb (sender m) loading); cbn [negb length]; lia.
Qed.

Lemma filter_no_loading (l : list Message) :
  count_loading l = 0%nat -> List.filter not_loading l = l.
Proof.
  unfold count_loading, not_loading.
  induction l as [|m l IH]; [reflexivity|]. cbn [List.filter].
  destruct (Sender_eqb (sender m) loading); cbn [negb length];
    [discriminate|]. intros H. rewrite (IH H). reflexivity.
Qed.

Lemma filter_filter_not_loading (l : list Message) :
  List.filter not_loading (List.filter not_loading l)
  = List.filter not_loading l.
Proof. apply filter_no_loading, count_loading_filter. Qed.

(** What a submission that is not blank does to the state. *)
Lemma handleSendMessage_sends (s : State) (t_user t_loading : Z) :
  Js.trim (input s) <> "" ->
  handleSendMessage s t_user t_loading
  = ({| messages := messages s ++ [newUserMessage s t_user;
                                   loadingMessage s t_loading];
        input := ""; loading_flag := true; inflight := inflight s |},
     Some {| question := input s |}).
Proof.
  intros B. unfold handleSendMessage. apply String.eqb_neq in B. rewrite B.
  unfold setMessages, setLoading, setInput, afterUserMessage, setMessages.
  cbn [messages input loading_flag inflight]. rewrite <- app_assoc.
  reflexivity.
Qed.

Lemma step_send (s s' : State) (t_user t_loading : Z) :
  Js.trim (input s) <> "" ->
  step s (Send t_user t_loading) = Some s' ->
  loading_flag s = false
  /\ valid_time t_user /\ valid_time t_loading
  /\ s' = {| messages := messages s ++ [newUserMessage s t_user;
                                        loadingMessage s t_loading];
             input := ""; loading_flag := true;
             inflight := Some {| question := input s |} |}.
Proof.
  intros B H. unfold step in H.
  destruct (loading_flag s); [discriminate|].
  destruct (valid_timeb t_user && valid_timeb t_loading) eqn:T; [|discriminate].
  apply andb_true_iff in T. destruct T as [T1 T2].
  apply valid_timeb_iff in T1. apply valid_timeb_iff in T2.
  rewrite (handleSendMessage_sends s t_user t_loading B) in H.
  inversion H; subst; clear H.
  split; [reflexivity|]. split; [assumption|]. split; [assumption|reflexivity].
Qed.

Lemma step_send_blank (s s' : State) (t_user t_loading : Z) :
  Js.trim (input s) = "" ->
  step s (Send t_user t_loading) = Some s' -> s' = s.
Proof.
  intros B H. unfold step in H.
  destruct (loading_flag s); [discriminate|].
  destruct (valid_timeb t_user && valid_timeb t_loading); [|discriminate].
  unfold handleSendMessage in H. rewrite B in H. inversion H. reflexivity.
Qed.

Lemma waiting_shape_preserved (s s' : State) (e : Event) :
  in_step s -> waiting_shape s -> step s e = Some s' -> waiting_shape s'.
Proof.
  intros I W H L'. destruct e as [draft|t1 t2|r now].
  - unfold step in H. destruct (loading_flag s) eqn:L; [discriminate|].
    inversion H; subst. cbn in L'. congruence.
  - destruct (String.eqb (Js.trim (input s)) "") eqn:B.
    + apply String.eqb_eq in B. apply (step_send_blank _ _ _ _ B) in H.
      subst s'. exact (W L').
    + apply String.eqb_neq in B.
      destruct (step_send _ _ _ _ B H) as (L & _ & _ & ->).
      unfold in_step in I. rewrite L in I. destruct I as [I _].
      exists (messages s), (newUserMessage s t1), (loadingMessage s t2),
             (input s).
      cbn. repeat split; try reflexivity. exact I.
  - unfold step in H. destruct (inflight s); [|discriminate].
    destruct (valid_timeb now); [|discriminate].
    apply onSettled_messages in H. destruct H as (_ & _ & F & _). congruence.
Qed.

Lemma reachable_waiting_shape (s : State) : reachable s -> waiting_shape s.
Proof.
  induction 1 as [t0 _|s e s' R IH H].
  - intros L. discriminate L.
  - exact (waiting_shape_preserved s s' e (reachable_in_step s R) IH H).
Qed.

Lemma last_id_ahead_preserved (s s' : State) (e : Event) :
  in_step s -> last_id_ahead s -> step s e = Some s' -> last_id_ahead s'.
Proof.
  intros I W H L' N. destruct e as [draft|t1 t2|r now].
  - unfold step in H. destruct (loading_flag s) eqn:L; [discriminate|].
    inversion H; subst. cbn in *. exact (W L N).
  - destruct (String.eqb (Js.trim (input s)) "") eqn:B.
    + apply String.eqb_eq in B. apply (step_send_blank _ _ _ _ B) in H.
      subst s'. exact (W L' N).
    + apply String.eqb_neq in B.
      destruct (step_send _ _ _ _ B H) as (_ & _ & _ & ->). discriminate L'.
  - unfold step in H. destruct (inflight s) eqn:F; [|discriminate].
    destruct (valid_timeb now); [|discriminate].
    unfold in_step in I. destruct (loading_flag s) eqn:L.
    + destruct I as [I _].
      apply onSettled_messages in H. destruct H as (txt & Hm & _).
      rewrite Hm. unfold replacePlaceholder. rewrite last_snoc.
      eexists. split; [reflexivity|]. split; [reflexivity|].
      cbn [id]. unfold length_plus. rewrite length_app. cbn [length].
      pose proof (length_filter_count (messages s)). lia.
    + destruct I as [_ I]. congruence.
Qed.

Lemma reachable_last_id_ahead (s : State) : reachable s -> last_id_ahead s.
Proof.
  induction 1 as [t0 _|s e s' R IH H].
  - intros _ N. cbn in N. lia.
  - exact (last_id_ahead_preserved s s' e (reachable_in_step s R) IH H).
Qed.

(** X4. In every state of a session the flag, the request and the
    placeholder agree: the flag is set exactly when a request waits for
    its answer, and exactly then the transcript holds a loading
    message, one; the text field is disabled exactly then. *)
Theorem flag_request_placeholder_agree (s : State) :
  reachable s ->
  (loading_flag s = true <-> inflight s <> None)
  /\ (loading_flag s = true <-> count_loading (messages s) = 1%nat)
  /\ (loading_flag s = false <-> count_loading (messages s) = 0%nat)
  /\ (View.input_disabled s = true <-> inflight s <> None).
Proof.
  intros R. apply reachable_in_step in R. unfold in_step in R.
  unfold View.input_disabled.
  destruct (loading_flag s); destruct R as [C F]; rewrite C;
    repeat split; intros; try congruence; try discriminate; try lia.
Qed.

Lemma flag_request_placeholder_witness :
  (loading_flag Scenario.awaiting = true <-> inflight Scenario.awaiting <> None)
  /\ (loading_flag Scenario.awaiting = true
      <-> count_loading (messages Scenario.awaiting) = 1%nat)
  /\ (loading_flag Scenario.awaiting = false
      <-> count_loading (messages Scenario.awaiting) = 0%nat)
  /\ (View.input_disabled Scenario.awaiting = true
      <-> inflight Scenario.awaiting <> None).
Proof.
  apply (flag_request_placeholder_agree Scenario.awaiting).
  apply (run_reachable (initial Scenario.t0) _
           [Typed "hello"; Send (Scenario.t0 + 5000) (Scenario.t0 + 5001)]).
  - apply reachable_initial. unfold valid_time, Scenario.t0. lia.
  - reflexivity.
Defined.

(** X5. While a request is out, the transcript ends with the user's
    question followed by the placeholder, nothing before them is a
    loading message, the text of that question is a string, the one the
    request carries, and the draft is empty. *)
Theorem waiting_transcript_shape (s : State) :
  reachable s -> loading_flag s = true ->
  exists base u l (q : string),
    messages s = base ++ [u; l]
    /\ count_loading base = 0%nat
    /\ sender u = user /\ sender l = loading
    /\ text u = q /\ inflight s = Some {| question := q |}
    /\ input s = "".
Proof. intros R L. exact (reachable_waiting_shape s R L). Qed.

Lemma waiting_transcript_witness :
  exists base u l (q : string),
    messages Scenario.awaiting = base ++ [u; l]
    /\ count_loading base = 0%nat
    /\ sender u = user /\ sender l = loading
    /\ text u = q /\ inflight Scenario.awaiting = Some {| question := q |}
    /\ input Scenario.awaiting = "".
Proof.
  apply (waiting_transcript_shape Scenario.awaiting).
  - apply (run_reachable (initial Scenario.t0) _
             [Typed "hello"; Send (Scenario.t0 + 5000) (Scenario.t0 + 5001)]).
    + apply reachable_initial. unfold valid_time, Scenario.t0. lia.
    + reflexivity.
  - reflexivity.
Defined.

Lemma step_keeps_settled (s s' : State) (e : Event) :
  step s e = Some s' ->
  exists added,
    List.filter not_loading (messages s')
    = List.filter not_loading (messages s) ++ added.
Proof.
  intros H. destruct e as [draft|t1 t2|r now].
  - unfold step in H. destruct (loading_flag s); [discriminate|].
    inversion H; subst. exists []. cbn. rewrite app_nil_r. reflexivity.
  - destruct (String.eqb (Js.trim (input s)) "") eqn:B.
    + apply String.eqb_eq in B. apply (step_send_blank _ _ _ _ B) in H.
      subst s'. exists []. rewrite app_nil_r. reflexivity.
    + apply String.eqb_neq in B.
      destruct (step_send _ _ _ _ B H) as (_ & _ & _ & ->).
      exists [newUserMessage s t1]. cbn [messages].
      rewrite List.filter_app. reflexivity.
  - unfold step in H. destruct (inflight s); [|discriminate].
    destruct (valid_timeb now); [|discriminate].
    apply onSettled_messages in H. destruct H as (txt & Hm & _).
    rewrite Hm. unfold replacePlaceholder. rewrite List.filter_app.
    rewrite filter_filter_not_loading. eexists. reflexivity.
Qed.

(** X6. No sequence of events removes or reorders a message that is
    not a placeholder: the transcript without loading messages only
    grows at its end. *)
Theorem settled_messages_only_grow (s s' : State) (es : list Event) :
  run s es = Some s' ->
  exists added,
    List.filter not_loading (messages s')
    = List.filter not_loading (messages s) ++ added.
Proof.
  revert s. induction es as [|e es IH]; cbn [run]; intros s H.
  - inversion H; subst. exists []. rewrite app_nil_r. reflexivity.
  - destruct (step s e) as [s1|] eqn:E; [|discriminate].
    destruct (step_keeps_settled _ _ _ E) as [a1 H1].
    destruct (IH s1 H) as [a2 H2].
    exists (a1 ++ a2). rewrite H2, H1, app_assoc. reflexivity.
Qed.

Lemma settled_messages_witness :
  exists added,
    List.filter not_loading (messages Scenario.awaiting)
    = List.filter not_loading (messages (initial Scenario.t0)) ++ added.
Proof.
  apply (settled_messages_only_grow (initial Scenario.t0) Scenario.awaiting
           [Typed "hello"; Send (Scenario.t0 + 5000) (Scenario.t0 + 5001)]).
  reflexivity.
Defined.

(** X7. One whole exchange, from a state of a session in which no
    request is out: sending a draft that is not blank and then any end
    of the request adds exactly two messages to the
    transcript, the user's with the draft as its text and id
    [length + 1] and the bot's with id [length + 3], and leaves the
    draft empty and the flag cleared. *)
Theorem exchange_adds_two_messages
        (s : State) (t_user t_loading now : Z) (r : Fetch) :
  reachable s -> loading_flag s = false -> Js.trim (input s) <> "" ->
  valid_time t_user -> valid_time t_loading -> valid_time now ->
  exists txt s',
    run s [Send t_user t_loading; Settled r now] = Some s'
    /\ messages s'
       = messages s
           ++ [ {| id := Z.of_nat (length (messages s)) + 1; text := input s;
                   sender := user; timestamp := t_user |};
                {| id := Z.of_nat (length (messages s)) + 3; text := txt;
                   sender := bot; timestamp := now |} ]
    /\ input s' = "" /\ loading_flag s' = false /\ inflight s' = None.
Proof.
  intros R L B V1 V2 V3.
  pose proof (reachable_in_step s R) as I. unfold in_step in I.
  rewrite L in I. destruct I as [C _].
  assert (E : step s (Send t_user t_loading)
              = Some {| messages := messages s
                                      ++ [newUserMessage s t_user;
                                          loadingMessage s t_loading];
                        input := ""; loading_flag := true;
                        inflight := Some {| question := input s |} |}).
  { unfold step. rewrite L.
    apply valid_timeb_iff in V1. apply valid_timeb_iff in V2.
    rewrite V1, V2. cbn [andb].
    rewrite (handleSendMessage_sends s t_user t_loading B). reflexivity. }
  cbn [run]. rewrite E. cbn [step inflight].
  apply valid_timeb_iff in V3. rewrite V3.
  match goal with |- context [onSettled ?st r now] => set (s1 := st) end.
  destruct (onSettled s1 r now) as [s'|] eqn:O.
  - pose proof O as O'. apply onSettled_messages in O'.
    destruct O' as (txt & Hm & Hl & Hi & Hin).
    exists txt, s'. split; [reflexivity|]. split; [|auto].
    rewrite Hm. unfold s1, replacePlaceholder. cbn [messages].
    rewrite List.filter_app, (filter_no_loading _ C). cbn.
    rewrite <- app_assoc. cbn. unfold length_plus.
    rewrite length_app. cbn [length]. do 4 f_equal. lia.
  - exfalso. unfold onSettled in O. destruct r as [| |data]; try discriminate.
    destruct (botReply data); discriminate.
Qed.

Lemma exchange_adds_two_witness :
  exists txt s',
    run (setInput "hello" (initial Scenario.t0))
        [Send (Scenario.t0 + 5000) (Scenario.t0 + 5001);
         Settled (Body Scenario.hi_there) (Scenario.t0 + 9000)] = Some s'
    /\ messages s'
       = messages (setInput "hello" (initial Scenario.t0))
           ++ [ {| id := Z.of_nat (length (messages (setInput "hello" (initial Scenario.t0)))) + 1;
                   text := input (setInput "hello" (initial Scenario.t0));
                   sender := user; timestamp := Scenario.t0 + 5000 |};
                {| id := Z.of_nat (length (messages (setInput "hello" (initial Scenario.t0)))) + 3;
                   text := txt;
                   sender := bot; timestamp := Scenario.t0 + 9000 |} ]
    /\ input s' = "" /\ loading_flag s' = false /\ inflight s' = None.
Proof.
  apply (exchange_adds_two_messages (setInput "hello" (initial Scenario.t0))).
  - apply (run_reachable (initial Scenario.t0) _ [Typed "hello"]).
    + apply reachable_initial. unfold valid_time, Scenario.t0. lia.
    + reflexivity.
  - reflexivity.
  - vm_compute. discriminate.
  - unfold valid_time, Scenario.t0. lia.
  - unfold valid_time, Scenario.t0. lia.
  - unfold valid_time, Scenario.t0. lia.
Defined.

(** X8. In a session, once a reply has settled, the message the user
    sends next gets the id that the last bot message already has: past
    the greeting, whenever no request is out, the last message is a bot
    message whose id is the id of the next user message. *)
Theorem next_user_id_repeats_last_bot_id (s : State) (t_user : Z) :
  reachable s -> loading_flag s = false -> (1 < length (messages s))%nat ->
  exists b,
    last (messages s) = Some b /\ sender b = bot
    /\ id (newUserMessage s t_user) = id b.
Proof.
  intros R L N. destruct (reachable_last_id_ahead s R L N) as (b & Hl & Hs & Hi).
  exists b. split; [exact Hl|]. split; [exact Hs|]. rewrite Hi. reflexivity.
Qed.

Lemma next_user_id_witness :
  exists b,
    last (messages
            {| messages :=
                 [ {| id := 1; text := App.greeting; sender := bot;
                      timestamp := Scenario.t0 |};
                   Scenario.hello;
                   {| id := 4; text := "hi there"; sender := bot;
                      timestamp := Scenario.t0 + 9000 |} ];
               input := ""; loading_flag := false; inflight := None |})
    = Some b /\ sender b = bot
    /\ id (newUserMessage
             {| messages :=
                  [ {| id := 1; text := App.greeting; sender := bot;
                       timestamp := Scenario.t0 |};
                    Scenario.hello;
                    {| id := 4; text := "hi there"; sender := bot;
                       timestamp := Scenario.t0 + 9000 |} ];
                input := ""; loading_flag := false; inflight := None |}
             (Scenario.t0 + 20000)) = id b.
Proof.
  apply (next_user_id_repeats_last_bot_id _ (Scenario.t0 + 20000)).
  - apply (run_reachable (initial Scenario.t0) _
             [ Typed "hello";
               Send (Scenario.t0 + 5000) (Scenario.t0 + 5001);
               Settled (Body Scenario.hi_there) (Scenario.t0 + 9000) ]).
    + apply reachable_initial. unfold valid_time, Scenario.t0. lia.
    + reflexivity.
  - reflexivity.
  - cbn. lia.
Defined.

End Sessions.

(** ** The page and its storage *)

Section Pages.

Import LocalStorage Persistence.

Lemma restore_of_stored (msgs : list Message) (st : Storage) :
  Forall (fun m => valid_time (timestamp m)) msgs ->
  getItem key st = Some (serialize msgs) ->
  restore st = match msgs with [] => Keep | _ => Replace msgs end.
Proof.
  intros V G. unfold restore. rewrite G. unfold serialize.
  destruct (String.eqb _ "") eqn:E.
  - apply String.eqb_eq in E. exfalso. exact (stringify_not_empty _ E).
  - rewrite parse_stringify, (revive_all_toJSON msgs V). reflexivity.
Qed.

(** Text that no value can start is a [SyntaxError]. *)
Lemma parse_cannot_open (raw : string) :
  Json.cannot_open raw = true -> Json.parse raw = None.
Proof.
  unfold Json.cannot_open, Json.parse. intros H.
  cbn [Json.parse_value].
  destruct (Json.skip_ws raw) as [|c r]; [reflexivity|].
  destruct (Json.digit_of c) as [d|] eqn:D; [discriminate|].
  apply negb_true_iff in H. repeat (apply orb_false_iff in H as [H ?]).
  repeat match goal with E : Ascii.eqb c _ = false |- _ =>
           rewrite E; clear E end.
  unfold Json.parse_number, Json.starts. rewrite Ascii.eqb_sym, H.
  unfold Json.parse_unsigned. cbn [Json.read_digits]. rewrite D.
  reflexivity.
Qed.

Lemma restore_nothing_saved (st : Storage) :
  Sync.nothing_saved st -> restore st = Keep.
Proof.
  unfold Sync.nothing_saved, restore. destruct (getItem key st) as [raw|];
    [|reflexivity].
  intros H. destruct (String.eqb raw "") eqn:E; [reflexivity|].
  destruct H as [H|[H|[H|(v & H & N)]]].
  - apply String.eqb_neq in E. contradiction.
  - rewrite (parse_cannot_open raw H), H. reflexivity.
  - rewrite H. reflexivity.
  - rewrite H. destruct v; try reflexivity. exfalso. exact (N _ eq_refl).
Qed.

(** X9. When nothing usable is stored (no text, the empty text, text
    that no JSON value can start, or text that reads as a value that
    is not an array with an element), loading the page does not fail:
    the component starts from the greeting alone, and the persist
    effect has run on that transcript. *)
Theorem mount_without_saved_transcript (t0 : Z) (st : Storage) :
  Sync.nothing_saved st ->
  Page.mount t0 st
  = Some {| ui := App.initial t0;
            store := persist (messages (App.initial t0)) st |}.
Proof.
  intros H. unfold Page.mount. rewrite (restore_nothing_saved st H).
  reflexivity.
Qed.

Lemma mount_without_saved_witness :
  Page.mount Scenario.t0
    {| items := {[ "chat.messages" := " <html>" ]}; quota := 5000000 |}
  = Some {| ui := App.initial Scenario.t0;
            store := persist (messages (App.initial Scenario.t0))
                       {| items := {[ "chat.messages" := " <html>" ]};
                          quota := 5000000 |} |}.
Proof.
  apply (mount_without_saved_transcript Scenario.t0
           {| items := {[ "chat.messages" := " <html>" ]}; quota := 5000000 |}).
  vm_compute. right. left. reflexivity.
Defined.

(** X10. When the stored text is the serialized transcript, a
    transcript that React can draw, loading the page again brings back
    exactly that transcript, whether or not the writes that follow
    succeed; the draft is gone, the flag is false, and the answer to a
    request that was out can no longer arrive. *)
Theorem reload_keeps_transcript (w : World) (t0 : Z) :
  Sync.synced w ->
  messages (ui w) <> [] ->
  Forall (fun m => valid_time (timestamp m)) (messages (ui w)) ->
  ReactChild.draws (messages (ui w)) = true ->
  valid_time t0 ->
  exists w2,
    Page.step w (Page.Reload t0) = Some w2
    /\ messages (ui w2) = messages (ui w)
    /\ input (ui w2) = "" /\ loading_flag (ui w2) = false
    /\ inflight (ui w2) = None
    /\ forall r now, Page.step w2 (Page.Ui (App.Settled r now)) = None.
Proof.
  intros S N V D T. cbn [Page.step]. apply valid_timeb_iff in T. rewrite T.
  unfold Page.mount. rewrite (restore_of_stored _ _ V S).
  destruct (messages (ui w)) as [|m ms] eqn:E; [contradiction|].
  rewrite D. eexists. split; [reflexivity|]. cbn. auto.
Qed.

Lemma reload_keeps_witness :
  exists w2,
    Page.step {| ui := Scenario.awaiting;
                 store := persist (messages Scenario.awaiting)
                            Scenario.empty_storage |}
              (Page.Reload (Scenario.t0 + 60000)) = Some w2
    /\ messages (ui w2) = messages Scenario.awaiting
    /\ input (ui w2) = "" /\ loading_flag (ui w2) = false
    /\ inflight (ui w2) = None
    /\ forall r now, Page.step w2 (Page.Ui (App.Settled r now)) = None.
Proof.
  apply (reload_keeps_transcript
           {| ui := Scenario.awaiting;
              store := persist (messages Scenario.awaiting)
                         Scenario.empty_storage |}
           (Scenario.t0 + 60000)).
  - vm_compute. reflexivity.
  - discriminate.
  - repeat constructor; vm_compute; discriminate.
  - reflexivity.
  - vm_compute. split; discriminate.
Defined.

Lemma persist_written (msgs : list Message) (st : Storage) :
  setItem key (serialize msgs) st <> None ->
  getItem key (persist msgs st) = Some (serialize msgs).
Proof.
  intros W. unfold persist.
  destruct (setItem key (serialize msgs) st) as [st'|] eqn:E; [|contradiction].
  exact (getItem_setItem _ _ _ _ E).
Qed.

(** X11. The stored text follows the transcript: if it is the
    serialized transcript before an event of the component, and the
    write that the persist effect makes after the event does not fail,
    it is the serialized transcript after the event too. *)
Theorem stored_transcript_follows (w w' : World) (e : App.Event) :
  Sync.synced w ->
  Page.step w (Page.Ui e) = Some w' ->
  setItem key (serialize (messages (ui w'))) (store w) <> None ->
  Sync.synced w'.
Proof.
  unfold Sync.synced. intros S H W. destruct e as [draft|t1 t2|r now];
    cbn [Page.step] in H.
  - destruct (App.step (ui w) (App.Typed draft)) as [s'|] eqn:E; [|discriminate].
    destruct (ReactChild.draws (messages s')); [|discriminate].
    inversion H; subst; clear H. cbn [ui store] in *.
    unfold App.step in E. destruct (loading_flag (ui w)); [discriminate|].
    inversion E; subst. exact S.
  - destruct (App.step (ui w) (App.Send t1 t2)) as [s'|] eqn:E; [|discriminate].
    destruct (ReactChild.draws (messages s')); [|discriminate].
    inversion H; subst; clear H. cbn [ui store] in *.
    destruct (String.eqb (Js.trim (input (ui w))) "") eqn:B.
    + apply String.eqb_eq in B. rewrite (step_send_blank _ _ _ _ B E). exact S.
    + exact (persist_written _ _ W).
  - destruct (App.step (ui w) (App.Settled r now)) as [s'|] eqn:E; [|discriminate].
    destruct (ReactChild.draws (messages s')); [|discriminate].
    inversion H; subst; clear H. cbn [ui store] in *.
    exact (persist_written _ _ W).
Qed.

Lemma stored_transcript_witness :
  Sync.synced {| ui := Scenario.awaiting;
                 store := persist (messages Scenario.awaiting)
                            (persist (messages (App.initial Scenario.t0))
                               Scenario.empty_storage) |}.
Proof.
  apply (stored_transcript_follows
           {| ui := App.setInput "hello" (App.initial Scenario.t0);
              store := persist (messages (App.initial Scenario.t0))
                         Scenario.empty_storage |}
           _ (App.Send (Scenario.t0 + 5000) (Scenario.t0 + 5001))).
  - vm_compute. reflexivity.
  - reflexivity.
  - vm_compute. discriminate.
Defined.

Lemma persist_items (msgs : list Message) (st : Storage) :
  persist msgs st = st
  \/ persist msgs st
     = {| items := <[key := serialize msgs]> (items st); quota := quota st |}.
Proof.
  unfold persist, setItem. destruct (_ <=? _)%N; [right|left]; reflexivity.
Qed.

(** X12. The persist effect touches one item only: every other key of
    the storage, the conversation id among them, reads as before, and
    the quota is what it was. *)
Theorem persist_leaves_other_keys (k : string) (msgs : list Message)
        (st : Storage) :
  k <> key ->
  getItem k (persist msgs st) = getItem k st
  /\ quota (persist msgs st) = quota st.
Proof.
  intros N. destruct (persist_items msgs st) as [-> | ->]; [auto|].
  unfold getItem. cbn [items quota]. split; [|reflexivity].
  apply lookup_insert_ne. congruence.
Qed.

Lemma persist_leaves_witness :
  getItem Session.key
    (persist (messages Scenario.awaiting)
       {| items := {[ Session.key := "k3j9x" ]}; quota := 5000000 |})
  = getItem Session.key
      {| items := {[ Session.key := "k3j9x" ]}; quota := 5000000 |}
  /\ quota (persist (messages Scenario.awaiting)
              {| items := {[ Session.key := "k3j9x" ]}; quota := 5000000 |})
     = quota {| items := {[ Session.key := "k3j9x" ]}; quota := 5000000 |}.
Proof.
  apply (persist_leaves_other_keys Session.key (messages Scenario.awaiting)
           {| items := {[ Session.key := "k3j9x" ]}; quota := 5000000 |}).
  vm_compute. discriminate.
Defined.

(** X13. Running the persist effect twice on one transcript is running
    it once: the second run changes nothing, whether the first one
    wrote or failed. *)
Theorem persist_twice (msgs : list Message) (st : Storage) :
  persist msgs (persist msgs st) = persist msgs st.
Proof.
  unfold persist at 2. unfold setItem.
  destruct (usage (<[key:=serialize msgs]> (items st)) <=? quota st)%N eqn:U.
  - unfold persist, setItem. cbn [items quota].
    rewrite insert_insert_eq, U. reflexivity.
  - unfold persist, setItem. rewrite U. reflexivity.
Qed.

End Pages.

(** ** More on the conversation id *)

Section ConversationIdMore.

Import LocalStorage Session.

Lemma getOrCreateCid_stored (draw cid : string) (st st' : Storage) :
  getOrCreateCid draw st = Returned cid st' ->
  getItem key st' = Some cid
  /\ (st' = st
      \/ st' = {| items := <[key := cid]> (items st); quota := quota st |}).
Proof.
  unfold getOrCreateCid. intros H.
  assert (G : forall c,
             match setItem key c st with
             | Some st1 => Returned c st1
             | None => Threw
             end = Returned cid st' ->
             getItem key st' = Some cid
             /\ (st' = st
                 \/ st' = {| items := <[key := cid]> (items st);
                             quota := quota st |})).
  { intros c E. destruct (setItem key c st) as [st1|] eqn:W; [|discriminate].
    inversion E; subst. split; [exact (getItem_setItem _ _ _ _ W)|].
    right. unfold setItem in W. destruct (_ <=? _)%N; [|discriminate].
    inversion W. reflexivity. }
  destruct (getItem key st) as [c|] eqn:E.
  - destruct (String.eqb c "").
    + exact (G _ H).
    + inversion H; subst. auto.
  - exact (G _ H).
Qed.

(** X14. A call that returns leaves the stored transcript alone: the
    restore effect finds what it would have found before, and the id
    that was returned is the one now stored. *)
Theorem cid_call_keeps_transcript (draw cid : string) (st st' : Storage) :
  getOrCreateCid draw st = Returned cid st' ->
  Persistence.restore st' = Persistence.restore st
  /\ getItem key st' = Some cid.
Proof.
  intros H. destruct (getOrCreateCid_stored _ _ _ _ H) as [G [-> | ->]];
    (split; [|exact G]); [reflexivity|].
  unfold Persistence.restore, getItem. cbn [items].
  rewrite lookup_insert_ne by discriminate. reflexivity.
Qed.

Lemma cid_call_keeps_witness :
  exists st',
    getOrCreateCid "0.k3j9x" Scenario.empty_storage = Returned "k3j9x" st'
    /\ Persistence.restore st' = Persistence.restore Scenario.empty_storage
    /\ getItem key st' = Some "k3j9x".
Proof.
  eexists. split; [vm_compute; reflexivity|].
  eapply (cid_call_keeps_transcript "0.k3j9x" "k3j9x" Scenario.empty_storage).
  vm_compute. reflexivity.
Defined.

(** X15. An id that is cached and not empty is returned whatever
    [Math.random] would give, and the storage is not written. *)
Theorem cid_cached_is_returned (draw cid : string) (st : Storage) :
  getItem key st = Some cid -> cid <> "" ->
  getOrCreateCid draw st = Returned cid st.
Proof.
  intros G N. unfold getOrCreateCid. rewrite G.
  apply String.eqb_neq in N. rewrite N. reflexivity.
Qed.

Lemma cid_cached_witness :
  getOrCreateCid "0.zzz"
    {| items := {[ key := "k3j9x" ]}; quota := 0 |}
  = Returned "k3j9x" {| items := {[ key := "k3j9x" ]}; quota := 0 |}.
Proof.
  apply (cid_cached_is_returned "0.zzz" "k3j9x"
           {| items := {[ key := "k3j9x" ]}; quota := 0 |}).
  - vm_compute. reflexivity.
  - discriminate.
Defined.

Lemma all_base36_slice (n : nat) (s : string) :
  all_base36 s = true -> all_base36 (Js.slice n s) = true.
Proof.
  revert s. induction n as [|n IH]; intros s H; [destruct s; exact H|].
  destruct s as [|c r]; [exact H|]. cbn [Js.slice]. apply IH.
  cbn [all_base36] in H. apply andb_true_iff in H. apply H.
Qed.

(** X16. When no id is cached, the id that is made is the digits that
    [Math.random ().toString (36)] prints after "0.": lower-case
    letters and digits only, and empty exactly when the number printed
    is "0". *)
Theorem cid_fresh_is_base36 (draw cid : string) (st st' : Storage) :
  getItem key st = None -> is_draw draw = true ->
  getOrCreateCid draw st = Returned cid st' ->
  all_base36 cid = true
  /\ (draw = "0" /\ cid = "" \/ draw = "0." +:+ cid /\ cid <> "").
Proof.
  intros G D H. unfold getOrCreateCid in H. rewrite G in H.
  destruct (setItem key (Js.slice 2 draw) st); [|discriminate].
  inversion H; subst; clear H.
  destruct draw as [|a [|b [|c r]]]; try discriminate D.
  - destruct (Ascii.eqb a "0") eqn:A.
    + apply Ascii.eqb_eq in A. subst a. split; [reflexivity|]. left. auto.
    + exfalso. destruct a as [[] [] [] [] [] [] [] []]; discriminate.
  - exfalso. destruct a as [[] [] [] [] [] [] [] []]; try discriminate D.
    destruct b as [[] [] [] [] [] [] [] []]; discriminate D.
  - assert (A : a = "0"%char /\ b = "."%char /\ all_base36 (String c r) = true).
    { destruct a as [[] [] [] [] [] [] [] []]; try discriminate D.
      destruct b as [[] [] [] [] [] [] [] []]; try discriminate D.
      auto. }
    destruct A as (-> & -> & A). cbn [Js.slice]. split; [exact A|].
    right. split; [reflexivity|discriminate].
Qed.

Lemma cid_fresh_witness :
  exists st',
    getOrCreateCid "0.k3j9x" Scenario.empty_storage = Returned "k3j9x" st'
    /\ all_base36 "k3j9x" = true
    /\ ("0.k3j9x" = "0" /\ "k3j9x" = ""
        \/ "0.k3j9x" = "0." +:+ "k3j9x" /\ "k3j9x" <> "").
Proof.
  eexists. split; [vm_compute; reflexivity|].
  eapply (cid_fresh_is_base36 "0.k3j9x" "k3j9x" Scenario.empty_storage).
  - vm_compute. reflexivity.
  - reflexivity.
  - vm_compute. reflexivity.
Defined.

End ConversationIdMore.

(** ** What is shown *)

Section Shown.

Import App View.

Variable toLocaleTimeString : Z -> string.

Lemma no_loading_Forall (l : list Message) :
  count_loading l = 0%nat -> Forall (fun m => sender m <> loading) l.
Proof.
  unfold count_loading. induction l as [|m l IH]; intros H; constructor.
  - intros E. cbn [List.filter] in H. rewrite E in H. discriminate.
  - apply IH. cbn [List.filter] in H.
    destruct (Sender_eqb (sender m) loading); [discriminate|exact H].
Qed.

Lemma row_of_settled (m : Message) :
  sender m <> loading ->
  row_text (row toLocaleTimeString m) = text m
  /\ exists c, row_time (row toLocaleTimeString m)
               = Some (c, toLocaleTimeString (timestamp m)).
Proof.
  intros H. unfold row. cbn [row_text row_time].
  destruct (sender m); [| |contradiction]; cbn; eauto.
Qed.

(** X17. What a session shows. While no request is out, every row
    shows the text and the time of its message. While one is out, the
    last row, and only that one, is the typing indicator: it reads
    "Thinking…" and has no time, whatever text and date the placeholder
    holds, and the row before it shows the question and its time. *)
Theorem rows_of_a_session (s : State) :
  reachable s ->
  if loading_flag s
  then exists base u l,
         messages s = base ++ [u; l]
         /\ rows toLocaleTimeString s
            = map (row toLocaleTimeString) base
                ++ [ row toLocaleTimeString u;
                     {| row_key := id l;
                        row_class := "message-container loading-message";
                        row_text := "Thinking…";
                        row_time := None |} ]
         /\ (row_text (row toLocaleTimeString u) = text u
             /\ exists c, row_time (row toLocaleTimeString u)
                          = Some (c, toLocaleTimeString (timestamp u)))
         /\ Forall (fun m =>
                      row_text (row toLocaleTimeString m) = text m
                      /\ exists c, row_time (row toLocaleTimeString m)
                                   = Some (c, toLocaleTimeString (timestamp m)))
                   base
  else Forall (fun m =>
                 row_text (row toLocaleTimeString m) = text m
                 /\ exists c, row_time (row toLocaleTimeString m)
                              = Some (c, toLocaleTimeString (timestamp m)))
              (messages s).
Proof.
  intros R. destruct (loading_flag s) eqn:L.
  - destruct (reachable_waiting_shape s R L)
      as (base & u & l & q & Hm & C & Hu & Hl & _).
    exists base, u, l. split; [exact Hm|]. split.
    + unfold rows. rewrite Hm, map_app. cbn [map]. do 3 f_equal.
      unfold row. rewrite Hl. reflexivity.
    + split.
      * apply row_of_settled. rewrite Hu. discriminate.
      * eapply Forall_impl; [apply no_loading_Forall, C|].
        intros m H. cbn beta. exact (row_of_settled m H).
  - apply reachable_in_step in R. unfold in_step in R. rewrite L in R.
    destruct R as [C _].
    eapply Forall_impl; [apply no_loading_Forall, C|].
    intros m H. cbn beta. exact (row_of_settled m H).
Qed.

(** X18. An enabled send button sends: when the button is not disabled
    and the clock is valid, a click is a step of the component, it
    sends the draft as the question, and it leaves both the button and
    the text field disabled. *)
Theorem enabled_button_sends (s : State) (t_user t_loading : Z) :
  send_disabled s = false -> valid_time t_user -> valid_time t_loading ->
  exists s',
    step s (Send t_user t_loading) = Some s'
    /\ inflight s' = Some {| question := input s |}
    /\ send_disabled s' = true /\ input_disabled s' = true.
Proof.
  unfold send_disabled. intros D V1 V2. apply orb_false_iff in D.
  destruct D as [B L]. apply String.eqb_neq in B.
  apply valid_timeb_iff in V1. apply valid_timeb_iff in V2.
  unfold step. rewrite L, V1, V2. cbn [andb].
  rewrite (handleSendMessage_sends s t_user t_loading B).
  eexists. split; [reflexivity|]. cbn. auto.
Qed.

End Shown.

Lemma rows_of_a_session_witness :
  if loading_flag Scenario.awaiting
  then exists base u l,
         messages Scenario.awaiting = base ++ [u; l]
         /\ View.rows JsDate.toISOString Scenario.awaiting
            = map (View.row JsDate.toISOString) base
                ++ [ View.row JsDate.toISOString u;
                     {| row_key := id l;
                        row_class := "message-container loading-message";
                        row_text := "Thinking…";
                        row_time := None |} ]
         /\ (row_text (View.row JsDate.toISOString u) = text u
             /\ exists c, row_time (View.row JsDate.toISOString u)
                          = Some (c, JsDate.toISOString (timestamp u)))
         /\ Forall (fun m =>
                      row_text (View.row JsDate.toISOString m) = text m
                      /\ exists c, row_time (View.row JsDate.toISOString m)
                                   = Some (c, JsDate.toISOString (timestamp m)))
                   base
  else Forall (fun m =>
                 row_text (View.row JsDate.toISOString m) = text m
                 /\ exists c, row_time (View.row JsDate.toISOString m)
                              = Some (c, JsDate.toISOString (timestamp m)))
              (messages Scenario.awaiting).
Proof.
  apply (rows_of_a_session JsDate.toISOString Scenario.awaiting).
  apply (run_reachable (App.initial Scenario.t0) _
           [App.Typed "hello";
            App.Send (Scenario.t0 + 5000) (Scenario.t0 + 5001)]).
  - apply App.reachable_initial. unfold valid_time, Scenario.t0. lia.
  - reflexivity.
Defined.

Lemma enabled_button_witness :
  exists s',
    App.step (App.setInput "hello" (App.initial Scenario.t0))
             (App.Send (Scenario.t0 + 5000) (Scenario.t0 + 5001)) = Some s'
    /\ inflight s'
       = Some {| question := input (App.setInput "hello" (App.initial Scenario.t0)) |}
    /\ View.send_disabled s' = true /\ View.input_disabled s' = true.
Proof.
  apply (enabled_button_sends (App.setInput "hello" (App.initial Scenario.t0))).
  - reflexivity.
  - unfold valid_time, Scenario.t0. lia.
  - unfold valid_time, Scenario.t0. lia.
Defined.

(** ** The echo of the first revision *)

Section Echoes.

Import Echo.

Lemma run_app (s : EchoState) (es1 es2 : list Event) :
  run s (es1 ++ es2)
  = match run s es1 with Some s1 => run s1 es2 | None => None end.
Proof.
  revert s. induction es1 as [|e es1 IH]; intros s; cbn [run app];
    [reflexivity|].
  destruct (step s e); [apply IH|reflexivity].
Qed.

Lemma handleSendMessage_sends_echo (s : EchoState) (now : Z) :
  Js.trim (e_input s) <> "" ->
  handleSendMessage s now
  = {| e_messages :=
         e_messages s
           ++ [ {| id := Z.of_nat (length (e_messages s)) + 1;
                   text := e_input s; sender := user; timestamp := now |} ];
       e_input := "";
       e_timers :=
         e_timers s
           ++ [ {| due_id := Z.of_nat (length (e_messages s)) + 2;
                   due_input := e_input s |} ] |}.
Proof.
  intros B. unfold handleSendMessage. apply String.eqb_neq in B.
  rewrite B. reflexivity.
Qed.

(** X19. One exchange of the first revision, when no timer waits:
    sending a draft that is not blank and letting the timer run adds
    the user's message, with the draft as typed and id [length + 1],
    and then the echo, which quotes the draft and has id [length + 2];
    the draft is cleared and no timer is left. *)
Theorem echo_exchange (s : EchoState) (t_send t_fire : Z) :
  e_timers s = [] -> Js.trim (e_input s) <> "" ->
  run s [Send t_send; Fire t_fire]
  = Some {| e_messages :=
              e_messages s
                ++ [ {| id := Z.of_nat (length (e_messages s)) + 1;
                        text := e_input s; sender := user;
                        timestamp := t_send |};
                     {| id := Z.of_nat (length (e_messages s)) + 2;
                        text := echo_text (e_input s); sender := bot;
                        timestamp := t_fire |} ];
            e_input := "";
            e_timers := [] |}.
Proof.
  intros T B. cbn [run step]. rewrite (handleSendMessage_sends_echo s t_send B).
  rewrite T. cbn [app e_timers e_messages e_input]. unfold fire.
  cbn [e_timers e_messages e_input due_id due_input].
  rewrite <- app_assoc. reflexivity.
Qed.

Lemma echo_exchange_witness :
  run {| e_messages := e_messages (initial 0); e_input := "hi";
         e_timers := [] |} [Send 1000; Fire 2000]
  = Some {| e_messages :=
              e_messages (initial 0)
                ++ [ {| id := Z.of_nat (length (e_messages (initial 0))) + 1;
                        text := "hi"; sender := user; timestamp := 1000 |};
                     {| id := Z.of_nat (length (e_messages (initial 0))) + 2;
                        text := echo_text "hi"; sender := bot;
                        timestamp := 2000 |} ];
            e_input := "";
            e_timers := [] |}.
Proof.
  apply (echo_exchange {| e_messages := e_messages (initial 0);
                          e_input := "hi"; e_timers := [] |} 1000 2000).
  - reflexivity.
  - vm_compute. discriminate.
Defined.

Lemma tidy_exchange (s : EchoState) (x : string * Z * Z) :
  tidy s -> Js.trim (fst (fst x)) <> "" ->
  exists s',
    run s (exchange x) = Some s' /\ tidy s'
    /\ length (e_messages s') = (length (e_messages s) + 2)%nat.
Proof.
  destruct x as [[draft t1] t2]. intros [T I] B. cbn [fst] in B.
  unfold exchange. cbn [run step].
  rewrite (handleSendMessage_sends_echo
             {| e_messages := e_messages s; e_input := draft;
                e_timers := e_timers s |} t1 B).
  cbn [e_messages e_input e_timers]. rewrite T. cbn [app]. unfold fire.
  cbn [e_messages e_input e_timers due_id due_input]. rewrite <- app_assoc.
  cbn [app].
  eexists. split; [reflexivity|]. unfold tidy. cbn [e_messages e_timers].
  split; [split; [reflexivity|]|].
  - rewrite map_app, I, length_app. cbn [length map id].
    rewrite seq_app, map_app. cbn [seq map]. f_equal.
    rewrite !Nat2Z.inj_add, !Nat2Z.inj_succ. cbn.
    f_equal; [lia|]. f_equal. lia.
  - rewrite length_app. reflexivity.
Qed.

(** X20. Used one message at a time, the first revision numbers its
    messages 1, 2, 3 and so on: after any number of exchanges, each a
    draft that is not blank, sent and answered before the next, the ids
    are the positions in the transcript, so no two messages share
    one. *)
Theorem echo_sequential_ids (t0 : Z) (xs : list (string * Z * Z)) :
  Forall (fun x => Js.trim (fst (fst x)) <> "") xs ->
  exists s',
    run (initial t0) (concat (map exchange xs)) = Some s'
    /\ e_timers s' = []
    /\ List.map id (e_messages s')
       = List.map Z.of_nat (seq 1 (1 + 2 * length xs))
    /\ NoDup (List.map id (e_messages s')).
Proof.
  intros H.
  assert (G : forall s, tidy s ->
            exists s', run s (concat (map exchange xs)) = Some s'
                       /\ tidy s'
                       /\ length (e_messages s')
                          = (length (e_messages s) + 2 * length xs)%nat).
  { induction H as [|x xs B _ IH]; intros s T.
    - exists s. cbn. split; [reflexivity|]. split; [exact T|lia].
    - destruct (tidy_exchange s x T B) as (s1 & R1 & T1 & L1).
      destruct (IH s1 T1) as (s2 & R2 & T2 & L2).
      exists s2. cbn [map concat]. rewrite run_app, R1.
      split; [exact R2|]. split; [exact T2|]. cbn [length]. lia. }
  destruct (G (initial t0)) as (s' & R & [T I] & L).
  { split; reflexivity. }
  exists s'. split; [exact R|]. split; [exact T|].
  cbn [initial e_messages length] in L.
  assert (E : List.map id (e_messages s')
              = List.map Z.of_nat (seq 1 (1 + 2 * length xs))).
  { rewrite I, L. reflexivity. }
  split; [exact E|]. rewrite E.
  apply NoDup_fmap_2; [intros a b; apply Nat2Z.inj|apply NoDup_seq].
Qed.

Lemma echo_sequential_witness :
  exists s',
    run (initial 0)
        (concat (map exchange [("hi", 1000, 2000); ("again", 3000, 4000)]))
    = Some s'
    /\ e_timers s' = []
    /\ List.map id (e_messages s')
       = List.map Z.of_nat
           (seq 1 (1 + 2 * length [("hi", 1000, 2000); ("again", 3000, 4000)]))
    /\ NoDup (List.map id (e_messages s')).
Proof.
  apply (echo_sequential_ids 0 [("hi", 1000, 2000); ("again", 3000, 4000)]).
  repeat constructor; vm_compute; discriminate.
Defined.

(** X21. Nothing stops a second message before the echo of the first:
    then, with no timer waiting at the start, the second user message
    and the echo of the first get the same id, [length + 2]. *)
Theorem echo_overlapping_ids_collide
        (s : EchoState) (d1 d2 : string) (t1 t2 t3 t4 : Z) :
  e_timers s = [] -> Js.trim d1 <> "" -> Js.trim d2 <> "" ->
  exists s',
    run s [Typed d1; Send t1; Typed d2; Send t2; Fire t3; Fire t4] = Some s'
    /\ List.map (fun m => (sender m, id m)) (e_messages s')
       = List.map (fun m => (sender m, id m)) (e_messages s)
           ++ [ (user, Z.of_nat (length (e_messages s)) + 1);
                (user, Z.of_nat (length (e_messages s)) + 2);
                (bot, Z.of_nat (length (e_messages s)) + 2);
                (bot, Z.of_nat (length (e_messages s)) + 3) ]
    /\ List.map text (e_messages s')
       = List.map text (e_messages s)
           ++ List.map JStr [d1; d2; echo_text d1; echo_text d2].
Proof.
  intros T B1 B2. cbn [run step].
  rewrite (handleSendMessage_sends_echo
             {| e_messages := e_messages s; e_input := d1;
                e_timers := e_timers s |} t1 B1).
  cbn [e_messages e_input e_timers].
  rewrite (handleSendMessage_sends_echo
             {| e_messages := e_messages s ++ [_]; e_input := d2;
                e_timers := e_timers s ++ [_] |} t2 B2).
  cbn [e_messages e_input e_timers]. rewrite T. cbn [app].
  eexists. split; [reflexivity|].
  unfold fire. cbn [e_messages e_input e_timers due_id due_input].
  rewrite !map_app, !length_app. cbn [map length sender id text].
  rewrite <- !app_assoc. cbn [app]. split.
  - cbn. rewrite !Nat2Z.inj_add. change (Z.of_nat 1) with 1.
    rewrite <- !Z.add_assoc. reflexivity.
  - reflexivity.
Qed.

Lemma echo_overlapping_witness :
  exists s',
    run (initial 0)
        [Typed "one"; Send 1000; Typed "two"; Send 1500; Fire 2000; Fire 2500]
    = Some s'
    /\ List.map (fun m => (sender m, id m)) (e_messages s')
       = List.map (fun m => (sender m, id m)) (e_messages (initial 0))
           ++ [ (user, Z.of_nat (length (e_messages (initial 0))) + 1);
                (user, Z.of_nat (length (e_messages (initial 0))) + 2);
                (bot, Z.of_nat (length (e_messages (initial 0))) + 2);
                (bot, Z.of_nat (length (e_messages (initial 0))) + 3) ]
    /\ List.map text (e_messages s')
       = List.map text (e_messages (initial 0))
           ++ List.map JStr ["one"; "two"; echo_text "one"; echo_text "two"].
Proof.
  apply (echo_overlapping_ids_collide (initial 0) "one" "two"
           1000 1500 2000 2500).
  - reflexivity.
  - vm_compute. discriminate.
  - vm_compute. discriminate.
Defined.

Lemma count_sender_app (sd : Sender) (l1 l2 : list Message) :
  count_sender sd (l1 ++ l2)
  = (count_sender sd l1 + count_sender sd l2)%nat.
Proof.
  unfold count_sender. rewrite List.filter_app, length_app. reflexivity.
Qed.

(** X22. The first revision answers every message once: in every state
    reached from the greeting, the bot messages and the timers still
    waiting are together one more than the user messages, the one
    being the greeting; and no event shortens the transcript. *)
Theorem echo_answers_every_message (s : EchoState) :
  reachable s ->
  (count_sender bot (e_messages s) + length (e_timers s)
   = 1 + count_sender user (e_messages s))%nat
  /\ forall e s', step s e = Some s' ->
       exists added, e_messages s' = e_messages s ++ added.
Proof.
  intros R. split.
  - induction R as [t0|s e s' _ IH H]; [reflexivity|].
    destruct e as [draft|now|now]; cbn [step] in H.
    + inversion H; subst. exact IH.
    + inversion H; subst; clear H. unfold handleSendMessage.
      destruct (String.eqb (Js.trim (e_input s)) ""); [exact IH|].
      cbn [e_messages e_timers]. rewrite !count_sender_app, length_app.
      cbn. lia.
    + destruct (e_timers s) as [|tm rest] eqn:T; [discriminate|].
      inversion H; subst; clear H. unfold fire.
      cbn [e_messages e_timers]. rewrite !count_sender_app.
      cbn in *. lia.
  - intros e s' H. destruct e as [draft|now|now]; cbn [step] in H.
    + inversion H; subst. exists []. cbn. rewrite app_nil_r. reflexivity.
    + inversion H; subst; clear H. unfold handleSendMessage.
      destruct (String.eqb (Js.trim (e_input s)) "").
      * exists []. rewrite app_nil_r. reflexivity.
      * eexists. reflexivity.
    + destruct (e_timers s) as [|tm rest]; [discriminate|].
      inversion H; subst; clear H. eexists. reflexivity.
Qed.

Lemma echo_answers_witness :
  (count_sender bot (e_messages (handleSendMessage
      {| e_messages := e_messages (initial 0); e_input := "hi";
         e_timers := [] |} 1000))
   + length (e_timers (handleSendMessage
      {| e_messages := e_messages (initial 0); e_input := "hi";
         e_timers := [] |} 1000))
   = 1 + count_sender user (e_messages (handleSendMessage
      {| e_messages := e_messages (initial 0); e_input := "hi";
         e_timers := [] |} 1000)))%nat
  /\ forall e s',
       step (handleSendMessage
               {| e_messages := e_messages (initial 0); e_input := "hi";
                  e_timers := [] |} 1000) e = Some s' ->
       exists added,
         e_messages s'
         = e_messages (handleSendMessage
                         {| e_messages := e_messages (initial 0);
                            e_input := "hi"; e_timers := [] |} 1000)
             ++ added.
Proof.
  apply (echo_answers_every_message
           (handleSendMessage
              {| e_messages := e_messages (initial 0); e_input := "hi";
                 e_timers := [] |} 1000)).
  apply (reachable_step
           {| e_messages := e_messages (initial 0); e_input := "hi";
              e_timers := [] |} (Send 1000)); [|reflexivity].
  apply (reachable_step (initial 0) (Typed "hi")); [|reflexivity].
  apply reachable_initial.
Defined.

End Echoes.

(** ** The connection check *)

Section Pinging.

Import Ping.

(** X23. Whatever the driver does, the script closes the client once,
    after everything else it asked of it; it does not ping when
    connecting failed, it prints the success line exactly when
    connecting and pinging both succeeded, and it reports an error
    exactly when some call failed: the one of [close] if that failed,
    else the first. *)
Theorem ping_closes_once (d : Driver) :
  count_close (main d) = 1%nat
  /\ (exists done report,
        main d = done ++ Close :: report
        /\ Forall (fun e => e = Connect \/ e = PingCommand \/ e = Log success) done
        /\ report
           = match close_error d, connect_error d, ping_error d with
             | Some e, _, _ => [Dir e]
             | None, Some e, _ => [Dir e]
             | None, None, Some e => [Dir e]
             | None, None, None => []
             end)
  /\ (In PingCommand (main d) <-> connect_error d = None)
  /\ (In (Log success) (main d)
      <-> connect_error d = None /\ ping_error d = None).
Proof.
  split; [destruct d as [[c|] [p|] [k|]]; reflexivity|].
  split.
  - exists (fst (attempt d)). eexists. split; [|split; [|reflexivity]].
    + destruct d as [[c|] [p|] [k|]]; reflexivity.
    + destruct d as [[c|] [p|] k]; cbn [attempt connect_error ping_error fst];
        repeat (constructor; [auto 6|]); constructor.
  - destruct d as [[c|] [p|] [k|]]; unfold main, run, attempt;
      cbn [connect_error ping_error close_error app In];
      split; split; intros H;
        repeat match goal with
               | H : _ \/ _ |- _ => destruct H
               | H : _ /\ _ |- _ => destruct H
               | H : False |- _ => destruct H
               end;
        try discriminate; auto 10.
Qed.

End Pinging.
